(** * Monastery map site: the map script and the two backend entry points

    A shallow embedding of the client-side map script (catalog, filter,
    marker rendering, slider) and of the handlers of both backend variants
    (signup, login, the token middleware, photo upload, photo listing,
    contact), with the properties of the specification, and further
    properties read off the code, stated over them.

    Conventions.
    - A JavaScript string is a [string]; one character of the model stands
      for one code unit, so [String.length] is [.length], [String.eqb] is
      [===] on strings.
    - A JavaScript Number that is only stored and passed on (a coordinate)
      is a binary64 [float]; a Number that is an array index or a length is
      an integer ([Z], [nat]), far below 2^53.
    - [String.prototype.toLowerCase] belongs to the host: the filter is
      defined over any function [toLowerCase], and the theorems assume of it
      only that it maps the empty string to itself. *)

From Stdlib Require Import String Ascii List ZArith NArith Lia Bool Floats.
From Stdlib Require Import DecimalString Permutation Sorted.
Import ListNotations.

Set Warnings "-inexact-float,-register-all".
Open Scope string_scope.
Open Scope list_scope.

(** ** Strings of the host *)

Module JS.

(** [s.includes(searchString)]: [searchString] occurs in [s] at some
    position. *)
Fixpoint includes (s searchString : string) : bool :=
  String.prefix searchString s ||
  match s with
  | EmptyString => false
  | String _ rest => includes rest searchString
  end.

(** [`${n}`] for a length: the decimal digits of [n]. *)
Definition length_toString (n : nat) : string :=
  NilEmpty.string_of_uint (Nat.to_uint n).

(** [toLowerCase] on the ASCII letters, every other character kept: what the
    host's function does on ASCII text. *)
Definition lower_ascii (c : ascii) : ascii :=
  let n := nat_of_ascii c in
  if (65 <=? n)%nat && (n <=? 90)%nat then ascii_of_nat (n + 32) else c.

Fixpoint ascii_toLowerCase (s : string) : string :=
  match s with
  | EmptyString => EmptyString
  | String c rest => String (lower_ascii c) (ascii_toLowerCase rest)
  end.

(** The string [t] occurs in [s]. *)
Definition Substring (t s : string) : Prop :=
  exists pre post : string, s = (pre ++ t ++ post)%string.

End JS.

(** ** The map script *)

Module Frontend.

(** One entry of the catalog. *)
Record Monastery : Type := {
  name : string;
  lat : float;
  lng : float;
  sect : string;
  location : string
}.

Definition MONASTERY_LOCATIONS : list Monastery := [
  {| name := "Rumtek Monastery"; lat := 27.2753; lng := 88.5447; sect := "Kagyu"; location := "East Sikkim" |};
  {| name := "Pemayangtse Monastery"; lat := 27.3193; lng := 88.2435; sect := "Nyingma"; location := "West Sikkim" |};
  {| name := "Tashiding Monastery"; lat := 27.3060; lng := 88.2932; sect := "Nyingma"; location := "West Sikkim" |};
  {| name := "Enchey Monastery"; lat := 27.3370; lng := 88.6143; sect := "Nyingma"; location := "East Sikkim" |};
  {| name := "Phodong Monastery"; lat := 27.4208; lng := 88.5833; sect := "Kagyu"; location := "North Sikkim" |};
  {| name := "Sanga Choeling Monastery"; lat := 27.3069; lng := 88.2415; sect := "Nyingma"; location := "West Sikkim" |};
  {| name := "Dubdi Monastery"; lat := 27.3592; lng := 88.3533; sect := "Nyingma"; location := "West Sikkim" |};
  {| name := "Lingdum Monastery (Ranka)"; lat := 27.3005; lng := 88.5710; sect := "Kagyu"; location := "East Sikkim" |};
  {| name := "Do Drul Chorten"; lat := 27.3277; lng := 88.6186; sect := "Nyingma"; location := "East Sikkim" |}
]%float.

(** *** The filter *)

Section FilterEngine.

Variable toLowerCase : string -> string.

(** The callback of [MONASTERY_LOCATIONS.filter(...)]; [sectValue] and
    [locationValue] are the two selectors' values, [searchTerm] the search
    field's value already lower-cased. *)
Definition matches (sectValue locationValue searchTerm : string)
    (monastery : Monastery) : bool :=
  let matchesSect := (sectValue =? "all") || (sect monastery =? sectValue) in
  let matchesLocation :=
    (locationValue =? "all") || (location monastery =? locationValue) in
  let matchesSearch :=
    JS.includes (toLowerCase (name monastery)) searchTerm ||
    JS.includes (toLowerCase (location monastery)) searchTerm in
  matchesSect && matchesLocation && matchesSearch.

(** [let filtered = ...], over the catalog [catalog] and the three values
    read from the page. *)
Definition filtered (catalog : list Monastery)
    (sectFilter locationFilter searchInput : string) : list Monastery :=
  let searchTerm := toLowerCase searchInput in
  List.filter (matches sectFilter locationFilter searchTerm) catalog.

(** The text written to the feedback element. *)
Definition feedbackText (found : list Monastery) : string :=
  "Found " ++ JS.length_toString (length found) ++
  " monasteries matching your criteria.".

End FilterEngine.

(** The filter of the specification, in its words: the three predicates of
    a criteria triple on a record. *)
Section FilterSpec.

Variable toLowerCase : string -> string.

Definition categoryHolds (category : string) (r : Monastery) : Prop :=
  category = "all" \/ category = sect r.

Definition regionHolds (region : string) (r : Monastery) : Prop :=
  region = "all" \/ region = location r.

Definition textHolds (searchText : string) (r : Monastery) : Prop :=
  searchText = "" \/
  JS.Substring (toLowerCase searchText) (toLowerCase (name r)) \/
  JS.Substring (toLowerCase searchText) (toLowerCase (location r)).

Definition Selected (category region searchText : string) (r : Monastery) : Prop :=
  categoryHolds category r /\ regionHolds region r /\ textHolds searchText r.

End FilterSpec.

(** [Subsequence_of P l l']: [l'] is [l] with exactly the elements that
    satisfy [P] kept, in the order of [l]. *)
Inductive Subsequence_of {A : Type} (P : A -> Prop) : list A -> list A -> Prop :=
| sub_nil : Subsequence_of P [] []
| sub_keep : forall x l l', P x -> Subsequence_of P l l' ->
    Subsequence_of P (x :: l) (x :: l')
| sub_drop : forall x l l', ~ P x -> Subsequence_of P l l' ->
    Subsequence_of P (x :: l) l'.

(** *** Leaflet objects

    The part of Leaflet the script drives: a marker, the layer group
    [markers], the map, and the counter [lastId] from which [Util.stamp]
    numbers an object (the map instance and each marker added to the group)
    when it first needs an id. *)

(** A template literal before the host renders its interpolations:
    [`${x}`] of a string is [Text x], of a Number [NumberToString x], and
    [`${encodeURIComponent(s)}`] is [EncodeURIComponent s]. *)
Inductive Chunk : Type :=
| Text (s : string)
| NumberToString (x : float)
| EncodeURIComponent (s : string).

Definition Template : Type := list Chunk.

Record Marker : Type := {
  latlng : float * float;
  popup : Template;
  options_monastery : Monastery;
  leaflet_id : N
}.

(** [layers] is the object [_layers], keyed by [leaflet_id], in insertion
    order; [group_map] is [_map]: the id of the map the group is on. *)
Record LayerGroup : Type := {
  layers : list Marker;
  group_map : option N
}.

Record TileLayer : Type := {
  urlTemplate : string;
  attribution : string
}.

Record LMap : Type := {
  map_id : N;
  container : string;
  center : float * float;
  zoom : Z;
  tiles : list TileLayer
}.

(** The three controls and the feedback element of the page. *)
Record Document : Type := {
  sectFilter : string;
  locationFilter : string;
  searchInput : string;
  searchFeedback_textContent : string;
  searchFeedback_display : string
}.

(** One call of [markers.addLayer]: the marker's id, and whether the group
    was on the current map when the call was made. *)
Inductive Event : Type :=
| MarkerAdded (id : N) (attached : bool).

Definition wasAttached (e : Event) : bool :=
  match e with MarkerAdded _ b => b end.

(** The globals of the script. [history] is a history variable: the calls
    of [markers.addLayer] so far, oldest first; nothing reads it. *)
Record Page : Type := {
  map : option LMap;
  markers : LayerGroup;
  lastId : N;
  document : Document;
  history : list Event
}.

Definition SIKKIM_CENTER : float * float := (27.33, 88.62)%float.
Definition ZOOM_LEVEL : Z := 10.

Definition nl : string := String "010"%char EmptyString.
Definition dq : string := String "034"%char EmptyString.

(** The marker group is on the map held in [map]. *)
Definition attached (st : Page) : bool :=
  match map st, group_map (markers st) with
  | Some m, Some i => N.eqb i (map_id m)
  | _, _ => false
  end.

(** [this._layers[id] = layer]. *)
Fixpoint setLayer (m : Marker) (ls : list Marker) : list Marker :=
  match ls with
  | [] => [m]
  | x :: rest =>
      if N.eqb (leaflet_id x) (leaflet_id m) then m :: rest
      else x :: setLayer m rest
  end.

(** [markers.clearLayers()]. *)
Definition clearLayers (st : Page) : Page :=
  {| map := map st;
     markers := {| layers := []; group_map := group_map (markers st) |};
     lastId := lastId st;
     document := document st;
     history := history st |}.

(** [markers.addLayer(marker)] for a marker that has no id yet: it is
    stamped with [++lastId] and stored under that id. *)
Definition addLayer (marker : N -> Marker) (st : Page) : Page :=
  let id := (lastId st + 1)%N in
  {| map := map st;
     markers := {| layers := setLayer (marker id) (layers (markers st));
                   group_map := group_map (markers st) |};
     lastId := id;
     document := document st;
     history := history st ++ [MarkerAdded id (attached st)] |}.

Definition googleMapsUrl (monastery : Monastery) : Template :=
  [Text "https://www.google.com/maps/@"; NumberToString (lat monastery);
   Text ","; NumberToString (lng monastery); Text ",18z/data=!3m1!1e3"].

(** The popup's template literal; the check mark of its HTML comment is
    written as the three bytes of its UTF-8 form. *)
Definition popupContent (monastery : Monastery) : Template :=
  [Text (nl ++ "            <div>" ++ nl ++ "                <strong>")] ++
  [Text (name monastery)] ++
  [Text ("</strong><br>" ++ nl ++ "                Sect: ")] ++
  [Text (sect monastery)] ++
  [Text ("<br>" ++ nl ++ "                Location: ")] ++
  [Text (location monastery)] ++
  [Text ("<br>" ++ nl ++ "                <a href=" ++ dq ++ "monastery_detail.html?name=")] ++
  [EncodeURIComponent (name monastery)] ++
  [Text (dq ++ " style=" ++ dq ++ "color: #003366; font-weight: bold; display: block; margin-top: 5px;" ++ dq ++ ">View Details &rarr;</a>" ++ nl ++ "                " ++ nl ++ "                <!-- ✅ UPDATED: Google Maps Link now points to Satellite/Globe View -->" ++ nl ++ "                <a href=" ++ dq)] ++
  googleMapsUrl monastery ++
  [Text (dq ++ " target=" ++ dq ++ "_blank" ++ dq ++ " style=" ++ dq ++ "color: #cc0000; font-weight: bold; display: block; margin-top: 5px;" ++ dq ++ ">" ++ nl ++ "                    View on Google Maps (Satellite) &rarr;" ++ nl ++ "                </a>" ++ nl ++ "            </div>" ++ nl ++ "        ")].

(** [L.marker([lat, lng]).bindPopup(popupContent)] with
    [options.monastery] set, awaiting its id. *)
Definition newMarker (monastery : Monastery) (id : N) : Marker :=
  {| latlng := (lat monastery, lng monastery);
     popup := popupContent monastery;
     options_monastery := monastery;
     leaflet_id := id |}.

(** [addMarkers(locations)]: the group is cleared, then each record, in
    order, gets its marker. *)
Definition addMarkers (locations : list Monastery) (st : Page) : Page :=
  List.fold_left (fun st' monastery => addLayer (newMarker monastery) st')
    locations (clearLayers st).

(** [map.remove()]: the map [old] lets go of its layers, so the marker
    group, when it is on [old], is on no map afterwards. *)
Definition map_remove (old : LMap) (st : Page) : Page :=
  {| map := map st;
     markers :=
       {| layers := layers (markers st);
          group_map :=
            match group_map (markers st) with
            | Some i => if N.eqb i (map_id old) then None else Some i
            | None => None
            end |};
     lastId := lastId st;
     document := document st;
     history := history st |}.

(** [map = L.map('monasteryMap').setView(SIKKIM_CENTER, ZOOM_LEVEL)]. *)
Definition createMap (st : Page) : Page :=
  let id := (lastId st + 1)%N in
  {| map := Some {| map_id := id; container := "monasteryMap";
                    center := SIKKIM_CENTER; zoom := ZOOM_LEVEL; tiles := [] |};
     markers := markers st;
     lastId := id;
     document := document st;
     history := history st |}.

(** [L.tileLayer(url, options).addTo(map)]. *)
Definition addTileLayer (t : TileLayer) (st : Page) : Page :=
  {| map :=
       match map st with
       | Some m => Some {| map_id := map_id m; container := container m;
                           center := center m; zoom := zoom m;
                           tiles := tiles m ++ [t] |}
       | None => None
       end;
     markers := markers st;
     lastId := lastId st;
     document := document st;
     history := history st |}.

(** [markers.addTo(map)]. *)
Definition markers_addTo_map (st : Page) : Page :=
  {| map := map st;
     markers := {| layers := layers (markers st);
                   group_map := option_map map_id (map st) |};
     lastId := lastId st;
     document := document st;
     history := history st |}.

Definition osmTiles : TileLayer :=
  {| urlTemplate := "https://{s}.tile.openstreetmap.org/{z}/{x}/{y}.png";
     attribution := "&copy; <a href=" ++ dq ++ "http://www.openstreetmap.org/copyright" ++ dq ++ ">OpenStreetMap</a> contributors" |}.

(** [initMap()]: an existing map is removed, the new one is created and
    given its tiles, the whole catalog is rendered, and only then is the
    marker group put on the map. *)
Definition initMap (st : Page) : Page :=
  let st1 := match map st with
             | Some old => map_remove old st
             | None => st
             end in
  let st2 := createMap st1 in
  let st3 := addTileLayer osmTiles st2 in
  let st4 := addMarkers MONASTERY_LOCATIONS st3 in
  markers_addTo_map st4.

Section Handlers.

Variable toLowerCase : string -> string.

(** [window.filterMonasteries]: the controls are read, the catalog is
    filtered, the result is rendered, and the feedback element is shown
    with the count. *)
Definition filterMonasteries (st : Page) : Page :=
  let sectValue := sectFilter (document st) in
  let locationValue := locationFilter (document st) in
  let found :=
    filtered toLowerCase MONASTERY_LOCATIONS sectValue locationValue
      (searchInput (document st)) in
  let st1 := addMarkers found st in
  {| map := map st1;
     markers := markers st1;
     lastId := lastId st1;
     document :=
       {| sectFilter := sectFilter (document st1);
          locationFilter := locationFilter (document st1);
          searchInput := searchInput (document st1);
          searchFeedback_textContent := feedbackText found;
          searchFeedback_display := "block" |};
     history := history st1 |}.

(** [window.search]. *)
Definition search (st : Page) : Page := filterMonasteries st.

End Handlers.

(** What can happen on the page: the load event runs [initMap], the user
    sets the three controls, a selector calls [filterMonasteries], the
    search button calls [search]. *)
Inductive Action : Type :=
| InitMap
| SetControls (sectValue locationValue text : string)
| CallFilter
| CallSearch.

Definition setControls (sectValue locationValue text : string) (st : Page) : Page :=
  {| map := map st;
     markers := markers st;
     lastId := lastId st;
     document :=
       {| sectFilter := sectValue;
          locationFilter := locationValue;
          searchInput := text;
          searchFeedback_textContent := searchFeedback_textContent (document st);
          searchFeedback_display := searchFeedback_display (document st) |};
     history := history st |}.

Definition perform (toLowerCase : string -> string) (a : Action) (st : Page) : Page :=
  match a with
  | InitMap => initMap st
  | SetControls sectValue locationValue text =>
      setControls sectValue locationValue text st
  | CallFilter => filterMonasteries toLowerCase st
  | CallSearch => search toLowerCase st
  end.

Definition run (toLowerCase : string -> string) (acts : list Action) (st : Page) : Page :=
  List.fold_left (fun s a => perform toLowerCase a s) acts st.

(** The page when the script has been loaded and no handler has run yet:
    [let map;], [let markers = L.layerGroup();]. *)
Definition initialPage (doc : Document) : Page :=
  {| map := None;
     markers := {| layers := []; group_map := None |};
     lastId := 0;
     document := doc;
     history := [] |}.

(** The controls as the page shows them before the user touches them. *)
Definition untouched : Document :=
  {| sectFilter := "all"; locationFilter := "all"; searchInput := "";
     searchFeedback_textContent := ""; searchFeedback_display := "none" |}.

(** What a render of [locations] leaves in the group when the counter
    stands at [last]: one marker per record, numbered from [last + 1]. *)
Fixpoint stamped (locations : list Monastery) (last : N) : list Marker :=
  match locations with
  | [] => []
  | monastery :: rest =>
      newMarker monastery (last + 1)%N :: stamped rest (last + 1)%N
  end.

(** What holds of the globals between handlers: no id is ahead of the
    counter, and the group is on no map or on the one held in [map]. *)
Definition page_ok (st : Page) : bool :=
  List.forallb (fun m => (leaflet_id m <=? lastId st)%N) (layers (markers st))
  && match group_map (markers st) with
     | None => true
     | Some _ => attached st
     end
  && match map st with
     | Some m => (map_id m <=? lastId st)%N
     | None => true
     end.

(** Every call of [markers.addLayer] so far found the group on the map. *)
Definition AlwaysAttached (st : Page) : Prop :=
  Forall (fun e => wasAttached e = true) (history st).

(** *** The slider *)

Record Slide : Type := { classList : list string }.

Record Slider : Type := {
  currentSlide : Z;
  slides : list Slide
}.

Definition classList_remove (c : string) (s : Slide) : Slide :=
  {| classList := List.filter (fun x => negb (x =? c)) (classList s) |}.

Definition classList_add (c : string) (s : Slide) : Slide :=
  {| classList :=
       if List.existsb (fun x => x =? c) (classList s) then classList s
       else classList s ++ [c] |}.

(** The body of [slides.forEach((slide, i) => ...)] from position [i] on. *)
Fixpoint activateFrom (i : nat) (index : Z) (l : list Slide) : list Slide :=
  match l with
  | [] => []
  | slide :: rest =>
      let slide1 := classList_remove "active" slide in
      let slide2 := if Z.eqb (Z.of_nat i) index
                    then classList_add "active" slide1 else slide1 in
      slide2 :: activateFrom (S i) index rest
  end.

Definition showSlide (index : Z) (s : Slider) : Slider :=
  {| currentSlide := index;
     slides := activateFrom 0 index (slides s) |}.

(** [%] is the truncating remainder of JavaScript, [Z.rem]; with no slide
    the source computes NaN, which the model does not represent: the
    transitions are used with at least one slide. *)
Definition nextSlide (s : Slider) : Slider :=
  let i := Z.rem (currentSlide s + 1) (Z.of_nat (length (slides s))) in
  showSlide i s.

Definition prevSlide (s : Slider) : Slider :=
  let i := Z.rem (currentSlide s - 1 + Z.of_nat (length (slides s)))
             (Z.of_nat (length (slides s))) in
  showSlide i s.

(** The id of the marker an event is about. *)
Definition eventId (e : Event) : N :=
  match e with MarkerAdded id _ => id end.

(** What the ids recorded so far obey: they grow strictly, and none is
    ahead of the counter. *)
Definition IdsGrow (st : Page) : Prop :=
  StronglySorted N.lt (List.map eventId (history st))
  /\ Forall (fun x => (x <= lastId st)%N) (List.map eventId (history st)).

(** [slide.classList.contains('active')]. *)
Definition isActive (s : Slide) : bool :=
  List.existsb (fun x => x =? "active") (classList s).

(** The class names of a slide other than 'active'. *)
Definition otherClasses (s : Slide) : list string :=
  List.filter (fun x => negb (x =? "active")) (classList s).

(** The end of the script, over the elements [document.querySelectorAll]
    found: [currentSlide] starts at 0 and, when there is a slide, the first
    one is shown. Each firing of the timer is one [nextSlide]. *)
Definition loadSlider (found : list Slide) : Slider :=
  let s := {| currentSlide := 0; slides := found |} in
  if (0 <? length found)%nat then showSlide 0 s else s.

(** Three slides, the second one showing. *)
Definition threeSlides : Slider :=
  {| currentSlide := 1;
     slides := [ {| classList := ["slide"] |};
                 {| classList := ["slide"; "active"] |};
                 {| classList := ["slide"] |} ] |}.

End Frontend.

(** ** The backend: what both entry points share

    The two halves of [index.js] declare the same models over the same
    document store; the store, the thrown errors, the responses and the
    model operations are given once. A handler runs to completion against
    the store, one request at a time (signups whose turns interleave are
    taken up in [Overlap]); what it writes to the console is left out. *)

Module Backend.

Record User : Type := {
  user_id : N;
  username : string;
  password : string;
  role : string
}.

(** [uploadDate] in milliseconds since the epoch. *)
Record Photo : Type := {
  photo_id : N;
  filename : string;
  filepath : string;
  uploadDate : Z
}.

(** The collections, the next [_id] to hand out, and whether the store
    answers: when [reachable] is [false] every operation on it rejects. *)
Record Db : Type := {
  users : list User;
  photos : list Photo;
  nextId : N;
  reachable : bool
}.

(** A thrown error with its [code] property, when it has one. *)
Record Error : Type := { code : option N }.

Definition duplicateKey : Error := {| code := Some 11000%N |}.
Definition validationError : Error := {| code := None |}.
Definition storeError : Error := {| code := None |}.
Definition argumentError : Error := {| code := None |}.

(** What [res.json] sends; [JPhoto] is a photo document as mongoose
    serialises it. *)
Inductive Json : Type :=
| JString (s : string)
| JObject (fields : list (string * Json))
| JArray (items : list Json)
| JPhoto (p : Photo).

Record Response : Type := {
  status : Z;
  body : Json
}.

(** [req.body] of the two credential endpoints: a field is missing or a
    string. *)
Record Credentials : Type := {
  body_username : option string;
  body_password : option string
}.

(** [!v] for a field of the body. *)
Definition isFalsy (v : option string) : bool :=
  match v with
  | None => true
  | Some s => s =? ""
  end.

Definition valueOf (v : option string) : string :=
  match v with
  | Some s => s
  | None => ""
  end.

(** The body of a [try] block: it returns or throws, and may change the
    store. *)
Definition Async (A : Type) : Type := Db -> (Error + A) * Db.

Definition ret {A : Type} (a : A) : Async A := fun db => (inr a, db).

Definition throw {A : Type} (e : Error) : Async A := fun db => (inl e, db).

Definition bind {A B : Type} (m : Async A) (k : A -> Async B) : Async B :=
  fun db =>
    match m db with
    | (inr a, db') => k a db'
    | (inl e, db') => (inl e, db')
    end.

Notation "x <- m ;; k" := (bind m (fun x => k))
  (at level 100, m at next level, right associativity).

(** [try { m } catch (error) { h error }], where the [catch] block only
    builds a response. *)
Definition tryCatch (m : Async Response) (h : Error -> Response)
    (db : Db) : Response * Db :=
  match m db with
  | (inr r, db') => (r, db')
  | (inl e, db') => (h e, db')
  end.

Definition json (st : Z) (b : Json) : Response := {| status := st; body := b |}.

Definition errorBody (msg : string) : Json := JObject [("error", JString msg)].

(** [User.countDocuments()]. *)
Definition User_countDocuments : Async nat :=
  fun db =>
    if reachable db then (inr (length (users db)), db)
    else (inl storeError, db).

(** [User.create({ username, password, role })] under the schema: the
    username goes through the schema's setter [setter] (the identity, or
    [trim]), the three fields are validated ([required], [enum]), and the
    unique index on [username] rejects a duplicate with code 11000. *)
Definition User_create (setter : string -> string)
    (username0 password0 role0 : string) : Async User :=
  fun db =>
    let u := setter username0 in
    if (u =? "") || (password0 =? "")
       || negb ((role0 =? "admin") || (role0 =? "user"))
    then (inl validationError, db)
    else if negb (reachable db) then (inl storeError, db)
    else if List.existsb (fun x => username x =? u) (users db)
    then (inl duplicateKey, db)
    else
      let doc := {| user_id := nextId db; username := u;
                    password := password0; role := role0 |} in
      (inr doc,
       {| users := users db ++ [doc]; photos := photos db;
          nextId := (nextId db + 1)%N; reachable := reachable db |}).

(** The document [{ username }] selects; the filter goes through the same
    setter, and a missing username selects nothing. *)
Definition findByUsername (setter : string -> string)
    (username0 : option string) (l : list User) : option User :=
  match username0 with
  | None => None
  | Some u => List.find (fun x => username x =? setter u) l
  end.

(** [User.findOne({ username })]. *)
Definition User_findOne (setter : string -> string)
    (username0 : option string) : Async (option User) :=
  fun db =>
    if negb (reachable db) then (inl storeError, db)
    else (inr (findByUsername setter username0 (users db)), db).

(** [.sort({ uploadDate: -1 })]: most recent first. *)
Fixpoint insertByDate (p : Photo) (l : list Photo) : list Photo :=
  match l with
  | [] => [p]
  | q :: rest =>
      if (uploadDate q <? uploadDate p)%Z then p :: q :: rest
      else q :: insertByDate p rest
  end.

Definition sortMostRecentFirst (l : list Photo) : list Photo :=
  List.fold_right insertByDate [] l.

(** [Photo.find().sort({ uploadDate: -1 })]. *)
Definition Photo_find_sorted : Async (list Photo) :=
  fun db =>
    if reachable db then (inr (sortMostRecentFirst (photos db)), db)
    else (inl storeError, db).

(** [bcrypt.compare(password, hash)]: rejects when [password] is missing. *)
Definition compareWith (bcrypt_compare : string -> string -> bool)
    (password0 : option string) (hash : string) : Async bool :=
  match password0 with
  | Some p => ret (bcrypt_compare p hash)
  | None => throw argumentError
  end.

(** [jwt.sign(payload, JWT_SECRET, { expiresIn: '1h' })]: throws when the
    secret is not set. *)
Definition signWith (jwt_sign : N -> string -> string -> string -> string)
    (JWT_SECRET : option string) (u : User) : Async string :=
  match JWT_SECRET with
  | Some secret => ret (jwt_sign (user_id u) (username u) (role u) secret)
  | None => throw argumentError
  end.

(** [error.code === 11000]. *)
Definition isDuplicateKey (e : Error) : bool :=
  match code e with
  | Some c => N.eqb c 11000
  | None => false
  end.

Definition invalidCredentials : Response :=
  json 401 (errorBody "Invalid credentials").

(** The sequence [l] is ordered most recent first. *)
Definition MostRecentFirst (l : list Photo) : Prop :=
  StronglySorted (fun p q => (uploadDate q <= uploadDate p)%Z) l.

(** A login request fails authentication: the store answers, and the
    username selects no user, or it selects one whose stored hash the
    password of the request does not match. *)
Definition AuthFails (setter : string -> string)
    (bcrypt_compare : string -> string -> bool)
    (req : Credentials) (db : Db) : Prop :=
  reachable db = true /\
  (findByUsername setter (body_username req) (users db) = None \/
   exists (u : User) (p : string),
     findByUsername setter (body_username req) (users db) = Some u /\
     body_password req = Some p /\
     bcrypt_compare p (password u) = false).

(** A store with nothing in it. *)
Definition emptyDb : Db :=
  {| users := []; photos := []; nextId := 0; reachable := true |}.

(** A stand-in for [bcrypt.hash] to run the handlers on examples. *)
Definition standInHash (p : string) : string := "$2b$10$" ++ p.

Definition standInCompare (p hash : string) : bool := standInHash p =? hash.

Definition standInSign (id : N) (u r secret : string) : string :=
  u ++ "." ++ r ++ "." ++ secret.

(** *** Tokens, uploads and contact messages *)

(** [s.split(separator)] for a separator of one character. *)
Fixpoint split (separator : ascii) (s : string) : list string :=
  match s with
  | EmptyString => [EmptyString]
  | String c rest =>
      if Ascii.eqb c separator then EmptyString :: split separator rest
      else
        match split separator rest with
        | [] => [String c EmptyString]
        | w :: ws => String c w :: ws
        end
  end.

(** The string has no space in it. *)
Fixpoint noSpace (s : string) : bool :=
  match s with
  | EmptyString => true
  | String c rest => negb (Ascii.eqb c " ") && noSpace rest
  end.

(** The payload [jwt.sign] is given, as [jwt.verify] hands it back. *)
Record Claims : Type := {
  claim_userId : N;
  claim_username : string;
  claim_role : string
}.

(** [authHeader && authHeader.split(' ')[1]]: a missing header stays
    missing, an empty one stays the empty string, any other yields the
    second piece, when there is one. *)
Definition tokenOf (authHeader : option string) : option string :=
  match authHeader with
  | None => None
  | Some h => if h =? "" then Some h else List.nth_error (split " " h) 1
  end.

(** [jwt.verify(token, JWT_SECRET, callback)]: the callback gets an error
    ([None]) or the payload; without a secret it gets an error. *)
Definition verifyWith (jwt_verify : string -> string -> option Claims)
    (JWT_SECRET : option string) (token : string) : option Claims :=
  match JWT_SECRET with
  | Some secret => jwt_verify token secret
  | None => None
  end.

(** [res.sendStatus(code)]: the status with its reason phrase as text. *)
Definition unauthorized : Response := json 401 (JString "Unauthorized").
Definition forbidden : Response := json 403 (JString "Forbidden").

(** [authenticateToken], which both halves of [index.js] declare alike: it
    answers itself, or calls [next] with [req.user] set. *)
Definition authenticateToken (jwt_verify : string -> string -> option Claims)
    (JWT_SECRET : option string) (authHeader : option string)
    : Response + Claims :=
  match tokenOf authHeader with
  | None => inl unauthorized
  | Some token =>
      match verifyWith jwt_verify JWT_SECRET token with
      | None => inl forbidden
      | Some user => inr user
      end
  end.

(** A request to the upload route whose body multer accepts: its
    [Authorization] header, and [req.file.filename] as multer sets it
    when a file came. A body multer rejects (a file over the size limit,
    an unexpected field) is not represented. *)
Record UploadRequest : Type := {
  authorization : option string;
  file_filename : option string
}.

(** [Photo.create({ filename, filepath })] at the time [now], which the
    schema takes as [uploadDate]. *)
Definition Photo_create (filename0 filepath0 : string) (now : Z) : Async Photo :=
  fun db =>
    if negb (reachable db) then (inl storeError, db)
    else
      let doc := {| photo_id := nextId db; filename := filename0;
                    filepath := filepath0; uploadDate := now |} in
      (inr doc,
       {| users := users db; photos := photos db ++ [doc];
          nextId := (nextId db + 1)%N; reachable := reachable db |}).

(** [req.body] of the contact endpoint. *)
Record ContactForm : Type := {
  form_name : option string;
  form_email : option string;
  form_message : option string
}.

Record Contact : Type := {
  contact_id : N;
  contact_name : option string;
  contact_email : option string;
  contact_message : option string;
  timestamp : Z
}.

(** The contacts collection, with its own view of whether the store
    answers. *)
Record Inbox : Type := {
  contacts : list Contact;
  inbox_nextId : N;
  inbox_reachable : bool
}.

(** What the contact endpoint sends: [{ message, contact }] or
    [{ error }]. *)
Inductive ContactBody : Type :=
| ContactCreated (message : string) (contact : Contact)
| ContactError (error : string).

Record ContactResponse : Type := {
  contact_status : Z;
  contact_body : ContactBody
}.

(** [Contact.create({ name, email, message })] at the time [now]; the
    schema requires nothing. *)
Definition Contact_create (form : ContactForm) (now : Z) (inbox : Inbox)
    : (Error + Contact) * Inbox :=
  if negb (inbox_reachable inbox) then (inl storeError, inbox)
  else
    let doc := {| contact_id := inbox_nextId inbox;
                  contact_name := form_name form;
                  contact_email := form_email form;
                  contact_message := form_message form;
                  timestamp := now |} in
    (inr doc,
     {| contacts := contacts inbox ++ [doc];
        inbox_nextId := (inbox_nextId inbox + 1)%N;
        inbox_reachable := inbox_reachable inbox |}).

(** The part of both contact handlers after their checks. *)
Definition submitContact (form : ContactForm) (now : Z) (inbox : Inbox)
    : ContactResponse * Inbox :=
  match Contact_create form now inbox with
  | (inr newContact, inbox') =>
      ({| contact_status := 201;
          contact_body := ContactCreated "Message sent successfully!" newContact |},
       inbox')
  | (inl _, inbox') =>
      ({| contact_status := 500;
          contact_body := ContactError "Failed to submit contact form" |},
       inbox')
  end.

(** The users are numbered by position: only the one at position 0 has the
    role 'admin', every other has the role 'user'. *)
Definition OnlyFirstIsAdmin (l : list User) : Prop :=
  forall (i : nat) (u : User),
    List.nth_error l i = Some u ->
    role u = (if Nat.eqb i 0 then "admin" else "user").

(** No two users carry the same username. *)
Definition UniqueUsernames (l : list User) : Prop :=
  NoDup (List.map username l).

(** A stand-in for [jwt.verify] that knows the token of the user "monk". *)
Definition standInVerify (token secret : string) : option Claims :=
  if (token =? "monk.admin.key") && (secret =? "key")
  then Some {| claim_userId := 0; claim_username := "monk";
               claim_role := "admin" |}
  else if (token =? "nun.user.key") && (secret =? "key")
  then Some {| claim_userId := 1; claim_username := "nun";
               claim_role := "user" |}
  else None.

(** A store holding the one user "monk", whose password is "secret1". *)
Definition oneUserDb : Db :=
  {| users := [{| user_id := 0; username := "monk";
                  password := standInHash "secret1"; role := "admin" |}];
     photos := []; nextId := 1; reachable := true |}.

End Backend.

(** ** The first half of [index.js]: the serverless entry point *)

Module Serverless.
Import Backend.

Section Handlers.

Variable bcrypt_hash : string -> string.
Variable bcrypt_compare : string -> string -> bool.
Variable jwt_sign : N -> string -> string -> string -> string.
Variable JWT_SECRET : option string.

(** The schema's [username] has no setter. *)
Definition setter (s : string) : string := s.

(** [POST /api/signup]. *)
Definition signup (req : Credentials) : Db -> Response * Db :=
  tryCatch
    (if isFalsy (body_username req) || isFalsy (body_password req)
     then ret (json 400 (errorBody "Username and password are required"))
     else
       let username0 := valueOf (body_username req) in
       let password0 := valueOf (body_password req) in
       let hashedPassword := bcrypt_hash password0 in
       userCount <- User_countDocuments ;;
       let role0 := if Nat.eqb userCount 0 then "admin" else "user" in
       newUser <- User_create setter username0 hashedPassword role0 ;;
       ret (json 201 (JObject [("message", JString "User registered successfully");
                               ("user", JString (username newUser))])))
    (fun error =>
       if isDuplicateKey error
       then json 409 (errorBody "Username already exists.")
       else json 500 (errorBody "Failed to register user")).

(** [POST /api/login]. *)
Definition login (req : Credentials) : Db -> Response * Db :=
  tryCatch
    (found <- User_findOne setter (body_username req) ;;
     match found with
     | None => ret invalidCredentials
     | Some user =>
         isPasswordValid <-
           compareWith bcrypt_compare (body_password req) (password user) ;;
         if negb isPasswordValid then ret invalidCredentials
         else
           token <- signWith jwt_sign JWT_SECRET user ;;
           ret (json 200 (JObject [("message", JString "Login successful");
                                   ("token", JString token);
                                   ("role", JString (role user));
                                   ("username", JString (username user))]))
     end)
    (fun _ => json 500 (errorBody "Login failed")).

End Handlers.

Definition mockPhotos : Json :=
  JArray [JObject [("filepath", JString "/static/rumtek.jpg")];
          JObject [("filepath", JString "/static/pemayangtse.jpg")]].

(** [GET /api/photos]. *)
Definition photosHandler : Db -> Response * Db :=
  tryCatch
    (found <- Photo_find_sorted ;;
     if Nat.eqb (length found) 0 then ret (json 200 mockPhotos)
     else ret (json 200 (JArray (List.map JPhoto found))))
    (fun _ => json 200 mockPhotos).

Section Guarded.

Variable jwt_verify : string -> string -> option Claims.
Variable JWT_SECRET : option string.

(** [POST /api/upload-photo]: [authenticateToken], then multer, then the
    handler, which stores nothing. *)
Definition uploadPhoto (req : UploadRequest) (db : Db) : Response * Db :=
  match authenticateToken jwt_verify JWT_SECRET (authorization req) with
  | inl answer => (answer, db)
  | inr user =>
      if negb (claim_role user =? "admin")
      then (json 403 (errorBody "Only admins can upload photos."), db)
      else
        (json 201
           (JObject [("message", JString "Photo upload successfully! (Feature is disabled on Vercel)");
                     ("file", JObject [("filepath", JString "/static/placeholder.jpg")])]),
         db)
  end.

End Guarded.

(** [POST /api/contact]. *)
Definition contact (form : ContactForm) (now : Z) (inbox : Inbox)
    : ContactResponse * Inbox :=
  submitContact form now inbox.

End Serverless.

(** ** The second half of [index.js]: the long-running server *)

Module Server.
Import Backend.

Section Handlers.

Variable trim : string -> string.
Variable bcrypt_hash : string -> string.
Variable bcrypt_compare : string -> string -> bool.
Variable jwt_sign : N -> string -> string -> string -> string.
Variable JWT_SECRET : option string.

(** The schema's [username] has [trim: true]. *)
Definition setter (s : string) : string := trim s.

(** [POST /api/signup]. *)
Definition signup (req : Credentials) : Db -> Response * Db :=
  tryCatch
    (if isFalsy (body_username req) || isFalsy (body_password req)
     then ret (json 400 (errorBody "Username and password are required"))
     else
       let username0 := valueOf (body_username req) in
       let password0 := valueOf (body_password req) in
       if (String.length password0 <? 6)%nat
       then ret (json 400 (errorBody "Password must be at least 6 characters long"))
       else
         userCount <- User_countDocuments ;;
         let role0 := if Nat.eqb userCount 0 then "admin" else "user" in
         let hashedPassword := bcrypt_hash password0 in
         newUser <- User_create setter username0 hashedPassword role0 ;;
         ret (json 201 (JObject [("message", JString "User registered successfully!");
                                 ("user", JObject [("username", JString (username newUser));
                                                   ("role", JString (role newUser))])])))
    (fun error =>
       if isDuplicateKey error
       then json 409 (errorBody "Username already exists.")
       else json 500 (errorBody "Failed to register user")).

(** [POST /api/login]. *)
Definition login (req : Credentials) : Db -> Response * Db :=
  tryCatch
    (found <- User_findOne setter (body_username req) ;;
     match found with
     | None => ret invalidCredentials
     | Some user =>
         isPasswordValid <-
           compareWith bcrypt_compare (body_password req) (password user) ;;
         if negb isPasswordValid then ret invalidCredentials
         else
           token <- signWith jwt_sign JWT_SECRET user ;;
           ret (json 200 (JObject [("message", JString "Login successful");
                                   ("token", JString token);
                                   ("role", JString (role user));
                                   ("username", JString (username user))]))
     end)
    (fun _ => json 500 (errorBody "Login failed")).

End Handlers.

(** [GET /api/photos]. *)
Definition photosHandler : Db -> Response * Db :=
  tryCatch
    (found <- Photo_find_sorted ;;
     ret (json 200 (JArray (List.map JPhoto found))))
    (fun _ => json 500 (errorBody "Failed to fetch photos")).

Section Guarded.

Variable jwt_verify : string -> string -> option Claims.
Variable JWT_SECRET : option string.

(** [isAdmin], after [authenticateToken] has set [req.user]. *)
Definition isAdmin (user : Claims) : Response + Claims :=
  if claim_role user =? "admin" then inr user
  else inl (json 403 (errorBody "Forbidden: Admin access required")).

(** [POST /api/upload-photo] at the time [now]: [authenticateToken], then
    [isAdmin], then multer, then the handler. *)
Definition uploadPhoto (req : UploadRequest) (now : Z) (db : Db)
    : Response * Db :=
  match authenticateToken jwt_verify JWT_SECRET (authorization req) with
  | inl answer => (answer, db)
  | inr user =>
      match isAdmin user with
      | inl answer => (answer, db)
      | inr _ =>
          tryCatch
            (match file_filename req with
             | None => ret (json 400 (errorBody "No file uploaded"))
             | Some name0 =>
                 newPhoto <- Photo_create name0 ("/uploads/" ++ name0) now ;;
                 ret (json 201 (JObject [("message", JString "Photo uploaded successfully!");
                                         ("file", JPhoto newPhoto)]))
             end)
            (fun _ => json 500 (errorBody "Failed to save photo metadata"))
            db
      end
  end.

End Guarded.

(** [POST /api/contact]. *)
Definition contact (form : ContactForm) (now : Z) (inbox : Inbox)
    : ContactResponse * Inbox :=
  if isFalsy (form_name form) || isFalsy (form_email form)
     || isFalsy (form_message form)
  then ({| contact_status := 400;
           contact_body := ContactError "All fields are required." |}, inbox)
  else submitContact form now inbox.

End Server.

(** ** Both entry points over one store *)

Module Site.
Import Backend.

(** Which half of [index.js] serves a request. *)
Inductive EntryPoint : Type :=
| ViaServerless
| ViaServer.

Section Signups.

Variable trim : string -> string.
Variable bcrypt_hash : string -> string.

Definition signupVia (e : EntryPoint) (req : Credentials) (db : Db)
    : Response * Db :=
  match e with
  | ViaServerless => Serverless.signup bcrypt_hash req db
  | ViaServer => Server.signup trim bcrypt_hash req db
  end.

(** The store after a sequence of signup requests, each served by the
    entry point it names. *)
Definition signupAll (reqs : list (EntryPoint * Credentials)) (db : Db) : Db :=
  List.fold_left (fun d r => snd (signupVia (fst r) (snd r) d)) reqs db.

End Signups.

End Site.

(** ** Signups that overlap *)

Module Overlap.
Import Backend.

(** A signup handler as the event loop runs it. Each [await] on the store
    hands control back, so the handler of another request may run before
    this one goes on: a handler has been received, or has its count and
    has not yet sent its create, or has answered. [bcrypt.hash] reads and
    writes no store; its [await] is folded into the step beside it. *)
Inductive Signup : Type :=
| Received (req : Credentials)
| Counted (username0 hashedPassword : string) (userCount : nat)
| Answered (resp : Response).

Section Steps.

Variable trim : string -> string.
Variable bcrypt_hash : string -> string.

(** The [catch] block, the same in both halves. *)
Definition onError (error : Error) : Response :=
  if isDuplicateKey error
  then json 409 (errorBody "Username already exists.")
  else json 500 (errorBody "Failed to register user").

(** The checks before the first [await] on the store: the answer they
    give, when they give one. *)
Definition checks (e : Site.EntryPoint) (req : Credentials) : option Response :=
  if isFalsy (body_username req) || isFalsy (body_password req)
  then Some (json 400 (errorBody "Username and password are required"))
  else
    match e with
    | Site.ViaServerless => None
    | Site.ViaServer =>
        if (String.length (valueOf (body_password req)) <? 6)%nat
        then Some (json 400 (errorBody "Password must be at least 6 characters long"))
        else None
    end.

Definition setterOf (e : Site.EntryPoint) : string -> string :=
  match e with
  | Site.ViaServerless => Serverless.setter
  | Site.ViaServer => Server.setter trim
  end.

(** The 201 answer of each half. *)
Definition created (e : Site.EntryPoint) (newUser : User) : Response :=
  match e with
  | Site.ViaServerless =>
      json 201 (JObject [("message", JString "User registered successfully");
                         ("user", JString (username newUser))])
  | Site.ViaServer =>
      json 201 (JObject [("message", JString "User registered successfully!");
                         ("user", JObject [("username", JString (username newUser));
                                           ("role", JString (role newUser))])])
  end.

(** One turn of a handler: from the request to the answer of
    [User.countDocuments()], or from there to the answer of
    [User.create(...)]. *)
Definition step (e : Site.EntryPoint) (p : Signup) (db : Db) : Signup * Db :=
  match p with
  | Received req =>
      match checks e req with
      | Some resp => (Answered resp, db)
      | None =>
          match User_countDocuments db with
          | (inr userCount, db') =>
              (Counted (valueOf (body_username req))
                 (bcrypt_hash (valueOf (body_password req))) userCount, db')
          | (inl error, db') => (Answered (onError error), db')
          end
      end
  | Counted username0 hashedPassword userCount =>
      match User_create (setterOf e) username0 hashedPassword
              (if Nat.eqb userCount 0 then "admin" else "user") db with
      | (inr newUser, db') => (Answered (created e newUser), db')
      | (inl error, db') => (Answered (onError error), db')
      end
  | Answered _ => (p, db)
  end.

(** The handler at position [i] takes one turn. *)
Fixpoint advance (i : nat) (ps : list (Site.EntryPoint * Signup)) (db : Db)
    : list (Site.EntryPoint * Signup) * Db :=
  match ps with
  | [] => ([], db)
  | q :: rest =>
      match i with
      | O => let (p', db') := step (fst q) (snd q) db in ((fst q, p') :: rest, db')
      | S j => let (rest', db') := advance j rest db in (q :: rest', db')
      end
  end.

(** The handlers take their turns in the order [schedule] gives. *)
Definition runSchedule (schedule : list nat)
    (ps : list (Site.EntryPoint * Signup)) (db : Db)
    : list (Site.EntryPoint * Signup) * Db :=
  List.fold_left (fun s i => advance i (fst s) (snd s)) schedule (ps, db).

End Steps.

(** The status a handler has answered with, when it has answered. *)
Definition answered (q : Site.EntryPoint * Signup) : option Z :=
  match snd q with
  | Answered resp => Some (status resp)
  | _ => None
  end.

End Overlap.

(** * Properties *)

(** ** Substrings *)

Section StringFacts.

Lemma prefix_iff_append (t s : string) :
  String.prefix t s = true <-> exists post : string, s = (t ++ post)%string.
Proof.
  revert s. induction t as [|c t IH]; intros s.
  - split; [intros _; exists s; reflexivity | destruct s; reflexivity].
  - destruct s as [|d s]; simpl.
    + split; [discriminate | intros [post H]; discriminate].
    + destruct (Ascii.ascii_dec c d) as [->|ne].
      * rewrite IH. split; intros [post H]; exists post.
        -- now rewrite H.
        -- now injection H.
      * split; [discriminate|].
        intros [post H]. injection H as H1 _. congruence.
Qed.

Lemma includes_iff_Substring (s t : string) :
  JS.includes s t = true <-> JS.Substring t s.
Proof.
  induction s as [|c s IH].
  - change (JS.includes "" t) with (String.prefix t "" || false).
    rewrite orb_true_iff, prefix_iff_append. split.
    + intros [[post H]|H]; [|discriminate]. exists ""%string, post. exact H.
    + intros [pre [post H]]. left. destruct pre; simpl in H.
      * exists post. exact H.
      * discriminate.
  - change (JS.includes (String c s) t)
      with (String.prefix t (String c s) || JS.includes s t).
    rewrite orb_true_iff, prefix_iff_append, IH. split.
    + intros [[post H]|[pre [post H]]].
      * exists ""%string, post. exact H.
      * exists (String c pre), post. simpl. now rewrite H.
    + intros [pre [post H]]. destruct pre as [|d pre]; simpl in H.
      * left. exists post. exact H.
      * right. injection H as _ H. exists pre, post. exact H.
Qed.

Lemma includes_empty (s : string) : JS.includes s "" = true.
Proof. destruct s; reflexivity. Qed.

End StringFacts.

(** ** Rendering the markers *)

Section MarkerFacts.

Import Frontend.

Lemma setLayer_fresh (m : Marker) (ls : list Marker) :
  Forall (fun x => (leaflet_id x < leaflet_id m)%N) ls ->
  setLayer m ls = ls ++ [m].
Proof.
  induction 1 as [|x ls Hx _ IH]; simpl; [reflexivity|].
  destruct (N.eqb_spec (leaflet_id x) (leaflet_id m)) as [E|_]; [lia|].
  now rewrite IH.
Qed.

Lemma stamped_length (locations : list Monastery) (last : N) :
  length (stamped locations last) = length locations.
Proof.
  revert last. induction locations as [|r l IH]; intros last; simpl;
    [reflexivity | now rewrite IH].
Qed.

(** The ids of a render are the next [length locations] values of the
    counter. *)
Lemma stamped_ids (locations : list Monastery) (last : N) :
  Forall (fun m => (last < leaflet_id m <= last + N.of_nat (length locations))%N)
    (stamped locations last).
Proof.
  revert last. induction locations as [|r l IH]; intros last; simpl.
  - constructor.
  - constructor; [simpl; lia|].
    eapply Forall_impl; [|apply IH]. simpl. intros m Hm. lia.
Qed.

Lemma stamped_NoDup (locations : list Monastery) (last : N) :
  NoDup (List.map leaflet_id (stamped locations last)).
Proof.
  revert last. induction locations as [|r l IH]; intros last; simpl.
  - constructor.
  - constructor; [|apply IH].
    intros Hin. apply in_map_iff in Hin as [m [Hid Hm]].
    pose proof (stamped_ids l (last + 1)) as F.
    rewrite Forall_forall in F. specialize (F m Hm). lia.
Qed.

Lemma stamped_records (locations : list Monastery) (last : N) :
  Forall2 (fun r m => latlng m = (lat r, lng r) /\ options_monastery m = r)
    locations (stamped locations last).
Proof.
  revert last. induction locations as [|r l IH]; intros last; simpl;
    constructor; [split; reflexivity | apply IH].
Qed.

Lemma stamped_options (locations : list Monastery) (last : N) :
  List.map options_monastery (stamped locations last) = locations.
Proof.
  revert last. induction locations as [|r l IH]; intros last; simpl;
    [reflexivity | now rewrite IH].
Qed.

(** The loop of [addMarkers], from any state whose markers are not ahead of
    the counter: each record appends its marker, numbered by the counter,
    and records whether the group was on the map; nothing else changes. *)
Lemma addLayer_loop (locations : list Monastery) (st : Page) :
  Forall (fun x => (leaflet_id x <= lastId st)%N) (layers (markers st)) ->
  let st' := List.fold_left
               (fun s monastery => addLayer (newMarker monastery) s)
               locations st in
  layers (markers st') = layers (markers st) ++ stamped locations (lastId st)
  /\ lastId st' = (lastId st + N.of_nat (length locations))%N
  /\ map st' = map st
  /\ group_map (markers st') = group_map (markers st)
  /\ document st' = document st
  /\ history st' =
       history st ++
       List.map (fun m => MarkerAdded (leaflet_id m) (attached st))
         (stamped locations (lastId st)).
Proof.
  revert st. induction locations as [|r l IH]; intros st Hok; simpl.
  - rewrite !app_nil_r, N.add_0_r. repeat split; reflexivity.
  - set (st1 := addLayer (newMarker r) st).
    assert (Hl : layers (markers st1) =
                 layers (markers st) ++ [newMarker r (lastId st + 1)]).
    { unfold st1, addLayer; simpl. apply setLayer_fresh.
      eapply Forall_impl; [|exact Hok]. simpl. intros m Hm. lia. }
    assert (Hok1 : Forall (fun x => (leaflet_id x <= lastId st1)%N)
                     (layers (markers st1))).
    { rewrite Hl. apply Forall_app. split.
      - eapply Forall_impl; [|exact Hok]. unfold st1; simpl. intros m Hm. lia.
      - constructor; [unfold st1; simpl; lia | constructor]. }
    destruct (IH st1 Hok1) as (H1 & H2 & H3 & H4 & H5 & H6).
    assert (Ha : attached st1 = attached st) by reflexivity.
    rewrite H1, H2, H3, H4, H5, H6, Hl, Ha.
    change (lastId st1) with (lastId st + 1)%N.
    unfold st1; simpl. rewrite <- !app_assoc. simpl.
    repeat split; try reflexivity. lia.
Qed.

(** What [addMarkers] leaves, from any state. *)
Lemma addMarkers_result (locations : list Monastery) (st : Page) :
  let st' := addMarkers locations st in
  layers (markers st') = stamped locations (lastId st)
  /\ lastId st' = (lastId st + N.of_nat (length locations))%N
  /\ map st' = map st
  /\ group_map (markers st') = group_map (markers st)
  /\ document st' = document st
  /\ history st' =
       history st ++
       List.map (fun m => MarkerAdded (leaflet_id m) (attached st))
         (stamped locations (lastId st)).
Proof.
  unfold addMarkers.
  assert (Hok : Forall (fun x => (leaflet_id x <= lastId (clearLayers st))%N)
                  (layers (markers (clearLayers st)))) by constructor.
  exact (addLayer_loop locations (clearLayers st) Hok).
Qed.

Lemma page_ok_layers (st : Page) :
  page_ok st = true ->
  Forall (fun m => (leaflet_id m <= lastId st)%N) (layers (markers st)).
Proof.
  unfold page_ok. rewrite !andb_true_iff. intros [[H _] _].
  rewrite forallb_forall in H. apply Forall_forall. intros m Hm.
  apply N.leb_le. now apply H.
Qed.

(** C4. After [addMarkers locations], the marker group holds one marker
    per record of [locations], in order, each at its record's coordinates
    and carrying its record, no two with the same id; every one of them
    was numbered during this call, and no marker the group held before the
    call is still in it. *)
Theorem addMarkers_one_marker_per_record
    (locations : list Monastery) (st : Page) (Hok : page_ok st = true) :
  let before := layers (markers st) in
  let after := layers (markers (addMarkers locations st)) in
  Forall2 (fun r m => latlng m = (lat r, lng r) /\ options_monastery m = r)
    locations after
  /\ length after = length locations
  /\ NoDup (List.map leaflet_id after)
  /\ Forall (fun m => (lastId st < leaflet_id m)%N) after
  /\ (forall m, In m before -> ~ In m after).
Proof.
  intros before after.
  destruct (addMarkers_result locations st) as (Hl & _).
  unfold after. rewrite Hl.
  split; [apply stamped_records|].
  split; [apply stamped_length|].
  split; [apply stamped_NoDup|].
  assert (Hnew : Forall (fun m => (lastId st < leaflet_id m)%N)
                   (stamped locations (lastId st))).
  { eapply Forall_impl; [|apply stamped_ids]. simpl. intros m Hm. lia. }
  split; [exact Hnew|].
  intros m Hb Ha.
  pose proof (page_ok_layers st Hok) as Hold.
  rewrite Forall_forall in Hold, Hnew.
  specialize (Hold m Hb). specialize (Hnew m Ha). lia.
Qed.

End MarkerFacts.

(** ** The marker group and the map *)

Section AttachmentFacts.

Import Frontend.

Variable toLowerCase : string -> string.

Lemma page_ok_iff (st : Page) :
  page_ok st = true <->
  Forall (fun m => (leaflet_id m <= lastId st)%N) (layers (markers st))
  /\ (group_map (markers st) = None \/ attached st = true)
  /\ (forall m, map st = Some m -> (map_id m <= lastId st)%N).
Proof.
  unfold page_ok. rewrite !andb_true_iff, forallb_forall, Forall_forall.
  split.
  - intros [[H1 H2] H3]. repeat split.
    + intros m Hm. apply N.leb_le. now apply H1.
    + destruct (group_map (markers st)); [right; exact H2 | left; reflexivity].
    + intros m Hm. rewrite Hm in H3. now apply N.leb_le.
  - intros (H1 & H2 & H3). repeat split.
    + intros m Hm. apply N.leb_le. now apply H1.
    + destruct (group_map (markers st)) eqn:E; [|reflexivity].
      destruct H2 as [H2|H2]; [discriminate | exact H2].
    + destruct (map st) as [m|]; [|reflexivity].
      apply N.leb_le. now apply H3.
Qed.

Lemma page_ok_initial (doc : Document) : page_ok (initialPage doc) = true.
Proof. reflexivity. Qed.

(** Before [initMap] creates its map, the group is on no map. *)
Lemma detached_before_createMap (st : Page) :
  page_ok st = true ->
  group_map (markers (match map st with
                      | Some old => map_remove old st
                      | None => st
                      end)) = None.
Proof.
  intros Hok. apply page_ok_iff in Hok as (_ & Hg & _).
  unfold attached in Hg.
  destruct (map st) as [old|]; simpl.
  - destruct (group_map (markers st)) as [i|]; [|reflexivity].
    destruct Hg as [Hg|Hg]; [discriminate|]. now rewrite Hg.
  - destruct (group_map (markers st)) as [i|]; [|reflexivity].
    destruct Hg as [Hg|Hg]; discriminate.
Qed.

Lemma stamped_within (locations : list Monastery) (last : N) :
  Forall (fun m => (leaflet_id m <= last + N.of_nat (length locations))%N)
    (stamped locations last).
Proof.
  eapply Forall_impl; [|apply stamped_ids]. simpl. intros m Hm. lia.
Qed.

(** [initMap] from a state as the handlers leave it: the nine markers are
    added while the group is on no map, and the group is on the new map
    when [initMap] returns. *)
Lemma initMap_result (st : Page) :
  page_ok st = true ->
  history (initMap st) =
    history st ++
    List.map (fun m => MarkerAdded (leaflet_id m) false)
      (stamped MONASTERY_LOCATIONS (lastId st + 1))
  /\ attached (initMap st) = true
  /\ page_ok (initMap st) = true.
Proof.
  intros Hok. pose proof (detached_before_createMap st Hok) as Hd.
  unfold initMap.
  set (st1 := match map st with Some old => map_remove old st | None => st end)
    in *.
  assert (Hid : lastId st1 = lastId st) by (unfold st1; destruct (map st); reflexivity).
  assert (Hh : history st1 = history st) by (unfold st1; destruct (map st); reflexivity).
  clearbody st1.
  set (st3 := addTileLayer osmTiles (createMap st1)).
  assert (Ha3 : attached st3 = false).
  { unfold attached, st3. simpl. now rewrite Hd. }
  destruct (addMarkers_result MONASTERY_LOCATIONS st3)
    as (Hl & Hn & Hm & Hg & _ & Hhist).
  set (st4 := addMarkers MONASTERY_LOCATIONS st3) in *. clearbody st4.
  assert (Hmap : map (markers_addTo_map st4) =
                 Some {| map_id := (lastId st + 1)%N; container := "monasteryMap";
                         center := SIKKIM_CENTER; zoom := ZOOM_LEVEL;
                         tiles := [osmTiles] |}).
  { simpl. rewrite Hm. unfold st3. simpl. now rewrite Hid. }
  assert (Hatt : attached (markers_addTo_map st4) = true).
  { unfold attached. rewrite Hmap. simpl. rewrite Hm. unfold st3. simpl.
    rewrite Hid. apply N.eqb_refl. }
  split; [|split; [exact Hatt|]].
  - simpl. rewrite Hhist, Ha3. unfold st3. simpl. now rewrite Hh, Hid.
  - apply page_ok_iff. repeat split.
    + simpl. rewrite Hl, Hn. apply stamped_within.
    + right. exact Hatt.
    + intros m Hm'. rewrite Hmap in Hm'. injection Hm' as <-. simpl.
      rewrite Hn. unfold st3. simpl. lia.
Qed.

(** [filterMonasteries] from any state: the markers it adds find the group
    as the state has it, and it moves neither the map nor the group. *)
Lemma filterMonasteries_result (st : Page) :
  (exists found : list Monastery,
     history (filterMonasteries toLowerCase st) =
       history st ++
       List.map (fun m => MarkerAdded (leaflet_id m) (attached st))
         (stamped found (lastId st)))
  /\ attached (filterMonasteries toLowerCase st) = attached st
  /\ (page_ok st = true -> page_ok (filterMonasteries toLowerCase st) = true).
Proof.
  unfold filterMonasteries. cbv zeta.
  set (found := filtered toLowerCase MONASTERY_LOCATIONS _ _ _).
  destruct (addMarkers_result found st) as (Hl & Hn & Hm & Hg & _ & Hhist).
  set (st1 := addMarkers found st) in *. clearbody st1.
  assert (Hatt : forall d, attached {| map := map st1; markers := markers st1;
                              lastId := lastId st1; document := d;
                              history := history st1 |} = attached st).
  { intros d. unfold attached. simpl. now rewrite Hm, Hg. }
  split; [exists found; exact Hhist|]. split; [apply Hatt|].
  intros Hok. apply page_ok_iff in Hok as (_ & H2 & H3).
  apply page_ok_iff. repeat split.
  - simpl. rewrite Hl, Hn. apply stamped_within.
  - rewrite Hatt. cbn [markers]. rewrite Hg. exact H2.
  - cbn [map lastId]. rewrite Hm, Hn. intros m E. specialize (H3 m E). lia.
Qed.

Lemma perform_page_ok (a : Action) (st : Page) :
  page_ok st = true -> page_ok (perform toLowerCase a st) = true.
Proof.
  intros Hok. destruct a; simpl.
  - now apply initMap_result.
  - exact Hok.
  - now apply filterMonasteries_result.
  - now apply filterMonasteries_result.
Qed.

Lemma run_snoc (acts : list Action) (a : Action) (st : Page) :
  run toLowerCase (acts ++ [a]) st =
  perform toLowerCase a (run toLowerCase acts st).
Proof. unfold run. now rewrite fold_left_app. Qed.

Lemma run_page_ok (acts : list Action) (doc : Document) :
  page_ok (run toLowerCase acts (initialPage doc)) = true.
Proof.
  induction acts as [|a acts IH] using rev_ind.
  - reflexivity.
  - rewrite run_snoc. now apply perform_page_ok.
Qed.

(** Once [initMap] has run, the group stays on the map. *)
Lemma run_attached (acts : list Action) (doc : Document) :
  In InitMap acts ->
  attached (run toLowerCase acts (initialPage doc)) = true.
Proof.
  induction acts as [|a acts IH] using rev_ind; [intros []|].
  intros Hin. rewrite run_snoc.
  destruct a; unfold perform, search.
  - apply initMap_result, run_page_ok.
  - apply in_app_or in Hin as [Hin|[Hin|[]]]; [|discriminate].
    exact (IH Hin).
  - apply in_app_or in Hin as [Hin|[Hin|[]]]; [|discriminate].
    destruct (filterMonasteries_result
                (run toLowerCase acts (initialPage doc))) as (_ & -> & _).
    exact (IH Hin).
  - apply in_app_or in Hin as [Hin|[Hin|[]]]; [|discriminate].
    destruct (filterMonasteries_result
                (run toLowerCase acts (initialPage doc))) as (_ & -> & _).
    exact (IH Hin).
Qed.

Lemma Forall_map_MarkerAdded (b : bool) (l : list Marker) :
  Forall (fun e => wasAttached e = b)
    (List.map (fun m => MarkerAdded (leaflet_id m) b) l).
Proof. induction l; simpl; constructor; [reflexivity | assumption]. Qed.

(** C5, as the code has it. In every execution from the loaded page, the
    handler that runs next adds its markers as follows: [initMap] adds the
    nine markers of its initial render while the marker group is on no
    map, and puts the group on the map afterwards; [filterMonasteries] and
    [search], once [initMap] has run, add every marker while the group is
    on the map. *)
Theorem markers_added_to_attached_group_after_initMap
    (doc : Document) (acts : list Action) (a : Action) :
  let st := run toLowerCase acts (initialPage doc) in
  exists evs : list Event,
    history (perform toLowerCase a st) = history st ++ evs
    /\ (a = InitMap ->
        length evs = length MONASTERY_LOCATIONS
        /\ Forall (fun e => wasAttached e = false) evs
        /\ attached (perform toLowerCase a st) = true)
    /\ (a <> InitMap -> In InitMap acts ->
        Forall (fun e => wasAttached e = true) evs
        /\ attached (perform toLowerCase a st) = true).
Proof.
  intros st. pose proof (run_page_ok acts doc) as Hok. fold st in Hok.
  destruct a as [|s l t| |].
  - destruct (initMap_result st Hok) as (Hh & Ha & _).
    eexists. split; [exact Hh|]. split; [|intros H; congruence].
    intros _. rewrite length_map, stamped_length.
    split; [reflexivity|]. split; [apply Forall_map_MarkerAdded | exact Ha].
  - exists []. split; [simpl; now rewrite app_nil_r|].
    split; [discriminate|]. intros _ Hin. split; [constructor|].
    exact (run_attached acts doc Hin).
  - destruct (filterMonasteries_result st) as ([found Hh] & Ha & _).
    eexists. split; [exact Hh|]. split; [discriminate|].
    intros _ Hin. pose proof (run_attached acts doc Hin) as Hatt. fold st in Hatt.
    unfold perform. rewrite Ha, Hatt.
    split; [apply Forall_map_MarkerAdded | reflexivity].
  - destruct (filterMonasteries_result st) as ([found Hh] & Ha & _).
    eexists. split; [exact Hh|]. split; [discriminate|].
    intros _ Hin. pose proof (run_attached acts doc Hin) as Hatt. fold st in Hatt.
    unfold perform, search. rewrite Ha, Hatt.
    split; [apply Forall_map_MarkerAdded | reflexivity].
Qed.

End AttachmentFacts.

(** ** The filter *)

Section FilterFacts.

Import Frontend.

Variable toLowerCase : string -> string.
Hypothesis toLowerCase_empty : toLowerCase "" = "".

Lemma matches_iff_Selected (category region searchText : string) (r : Monastery) :
  matches toLowerCase category region (toLowerCase searchText) r = true <->
  Selected toLowerCase category region searchText r.
Proof.
  unfold matches, Selected, categoryHolds, regionHolds, textHolds.
  rewrite !andb_true_iff, !orb_true_iff, !String.eqb_eq,
    !includes_iff_Substring.
  split.
  - intros [[Hc Hr] Ht]. repeat split.
    + destruct Hc; [left | right]; congruence.
    + destruct Hr; [left | right]; congruence.
    + right. exact Ht.
  - intros [Hc [Hr Ht]]. repeat split.
    + destruct Hc; [left | right]; congruence.
    + destruct Hr; [left | right]; congruence.
    + destruct Ht as [He|Ht]; [|exact Ht].
      left. subst searchText. rewrite toLowerCase_empty.
      apply includes_iff_Substring, includes_empty.
Qed.

(** [Subsequence_of P l] determines its result: there is one list that is
    [l] with exactly the elements satisfying [P] kept. *)
Lemma Subsequence_of_unique {A : Type} (P : A -> Prop) (l l1 l2 : list A) :
  Subsequence_of P l l1 -> Subsequence_of P l l2 -> l1 = l2.
Proof.
  intros H1. revert l2.
  induction H1 as [|x l l1 Hx _ IH|x l l1 Hx _ IH]; intros l2 H2;
    inversion H2; subst; try contradiction.
  - reflexivity.
  - f_equal. now apply IH.
  - now apply IH.
Qed.

(** C1. For every catalog and every criteria triple, the filter returns
    exactly the records of the catalog, in catalog order, for which the
    three predicates hold: the category is "all" or the record's sect, the
    region is "all" or the record's location, and the search text is empty
    or its lower-cased form occurs in the lower-cased name or in the
    lower-cased location. *)
Theorem filtered_is_selected_subsequence
    (catalog : list Monastery) (category region searchText : string) :
  Subsequence_of (Selected toLowerCase category region searchText)
    catalog (filtered toLowerCase catalog category region searchText).
Proof.
  unfold filtered. induction catalog as [|r catalog IH]; simpl.
  - constructor.
  - destruct (matches toLowerCase category region (toLowerCase searchText) r)
      eqn:E.
    + apply sub_keep; [|exact IH]. now apply matches_iff_Selected.
    + apply sub_drop; [|exact IH].
      intros H. apply matches_iff_Selected in H. congruence.
Qed.

(** C3. With both selectors at "all" and an empty search text, the filter
    returns the whole catalog, in its order. *)
Theorem filtered_wildcards_identity (catalog : list Monastery) :
  filtered toLowerCase catalog "all" "all" "" = catalog.
Proof.
  unfold filtered. rewrite toLowerCase_empty.
  induction catalog as [|r catalog IH]; simpl; [reflexivity|].
  unfold matches at 1. rewrite includes_empty. simpl. now rewrite IH.
Qed.

(** C2. On the catalog of the script, the sect "Nyingma" with region "all"
    and an empty search text selects the six records Pemayangtse,
    Tashiding, Enchey, Sanga Choeling, Dubdi and Do Drul Chorten, in
    catalog order; [filterMonasteries] renders one marker for each and
    writes "Found 6 monasteries matching your criteria." to the feedback
    element. *)
Theorem nyingma_scenario (st : Page)
    (Hsect : sectFilter (document st) = "Nyingma")
    (Hlocation : locationFilter (document st) = "all")
    (Hsearch : searchInput (document st) = "") :
  let found := filtered toLowerCase MONASTERY_LOCATIONS "Nyingma" "all" "" in
  let st' := filterMonasteries toLowerCase st in
  found =
    [ {| name := "Pemayangtse Monastery"; lat := 27.3193; lng := 88.2435; sect := "Nyingma"; location := "West Sikkim" |};
      {| name := "Tashiding Monastery"; lat := 27.3060; lng := 88.2932; sect := "Nyingma"; location := "West Sikkim" |};
      {| name := "Enchey Monastery"; lat := 27.3370; lng := 88.6143; sect := "Nyingma"; location := "East Sikkim" |};
      {| name := "Sanga Choeling Monastery"; lat := 27.3069; lng := 88.2415; sect := "Nyingma"; location := "West Sikkim" |};
      {| name := "Dubdi Monastery"; lat := 27.3592; lng := 88.3533; sect := "Nyingma"; location := "West Sikkim" |};
      {| name := "Do Drul Chorten"; lat := 27.3277; lng := 88.6186; sect := "Nyingma"; location := "East Sikkim" |} ]%float
  /\ length found = 6%nat
  /\ List.map options_monastery (layers (markers st')) = found
  /\ searchFeedback_textContent (document st') =
       "Found 6 monasteries matching your criteria.".
Proof.
  intros found st'.
  assert (Hfound : found = List.filter (fun r => sect r =? "Nyingma")
                                       MONASTERY_LOCATIONS).
  { unfold found, filtered. rewrite toLowerCase_empty.
    apply List.filter_ext. intros r. unfold matches.
    rewrite includes_empty. simpl. rewrite !andb_true_r. reflexivity. }
  split; [rewrite Hfound; reflexivity|].
  split; [rewrite Hfound; reflexivity|].
  split.
  - unfold st', filterMonasteries. cbv zeta. cbn [markers].
    rewrite Hsect, Hlocation, Hsearch. fold found.
    destruct (addMarkers_result found st) as (Hl & _).
    rewrite Hl. apply stamped_options.
  - unfold st', filterMonasteries. cbv zeta.
    cbn [document searchFeedback_textContent].
    rewrite Hsect, Hlocation, Hsearch. fold found. rewrite Hfound. reflexivity.
Qed.

End FilterFacts.

(** C5 as stated fails on the first handler that runs: the markers of the
    initial render are added before the group is put on the map. *)
Lemma initial_render_precedes_attachment :
  ~ Frontend.AlwaysAttached
      (Frontend.initMap (Frontend.initialPage Frontend.untouched)).
Proof.
  unfold Frontend.AlwaysAttached. intros H.
  rewrite Forall_forall in H.
  specialize (H (Frontend.MarkerAdded 2 false)).
  discriminate H. vm_compute. left. reflexivity.
Qed.

(** ** The slider *)

Section SliderFacts.

Import Frontend.
Open Scope Z_scope.

Lemma activateFrom_length (i : nat) (index : Z) (l : list Slide) :
  length (activateFrom i index l) = length l.
Proof.
  revert i. induction l as [|x l IH]; intros i; simpl;
    [reflexivity | now rewrite IH].
Qed.

Lemma nextSlide_slides (s : Slider) :
  length (slides (nextSlide s)) = length (slides s).
Proof. apply activateFrom_length. Qed.

Lemma prevSlide_slides (s : Slider) :
  length (slides (prevSlide s)) = length (slides s).
Proof. apply activateFrom_length. Qed.

Lemma nextSlide_index (s : Slider) :
  0 < Z.of_nat (length (slides s)) -> 0 <= currentSlide s ->
  currentSlide (nextSlide s) =
    (currentSlide s + 1) mod Z.of_nat (length (slides s)).
Proof.
  intros Hn Hc. unfold nextSlide. cbn [showSlide currentSlide].
  apply Z.rem_mod_nonneg; lia.
Qed.

Lemma prevSlide_index (s : Slider) :
  0 < Z.of_nat (length (slides s)) -> 0 <= currentSlide s ->
  currentSlide (prevSlide s) =
    (currentSlide s - 1 + Z.of_nat (length (slides s)))
      mod Z.of_nat (length (slides s)).
Proof.
  intros Hn Hc. unfold prevSlide. cbn [showSlide currentSlide].
  apply Z.rem_mod_nonneg; lia.
Qed.

(** [k] calls of [nextSlide] advance the index by [k], modulo the number of
    slides, which they keep. *)
Lemma iter_nextSlide (k : nat) (s : Slider) :
  0 < Z.of_nat (length (slides s)) -> 0 <= currentSlide s ->
  length (slides (Nat.iter k nextSlide s)) = length (slides s)
  /\ currentSlide (Nat.iter k nextSlide s) =
       (currentSlide s + Z.of_nat k) mod Z.of_nat (length (slides s))
     \/ k = 0%nat.
Proof.
  intros Hn Hc. destruct k as [|k]; [right; reflexivity|]. left.
  induction k as [|k [IHl IHc]].
  - simpl Nat.iter. split; [apply nextSlide_slides|].
    now apply nextSlide_index.
  - change (Nat.iter (S (S k)) nextSlide s)
      with (nextSlide (Nat.iter (S k) nextSlide s)).
    set (s' := Nat.iter (S k) nextSlide s) in *.
    split; [now rewrite nextSlide_slides|].
    rewrite nextSlide_index.
    + rewrite IHl, IHc, Z.add_mod_idemp_l by lia. f_equal. lia.
    + rewrite IHl. exact Hn.
    + rewrite IHc. apply Z.mod_pos_bound. lia.
Qed.

Lemma iter_prevSlide (k : nat) (s : Slider) :
  0 < Z.of_nat (length (slides s)) -> 0 <= currentSlide s ->
  length (slides (Nat.iter k prevSlide s)) = length (slides s)
  /\ currentSlide (Nat.iter k prevSlide s) =
       (currentSlide s - Z.of_nat k) mod Z.of_nat (length (slides s))
     \/ k = 0%nat.
Proof.
  intros Hn Hc. destruct k as [|k]; [right; reflexivity|]. left.
  assert (Hstep : forall t : Slider,
            length (slides t) = length (slides s) -> 0 <= currentSlide t ->
            currentSlide (prevSlide t) =
              (currentSlide t - 1) mod Z.of_nat (length (slides s))).
  { intros t Ht Hct.
    rewrite prevSlide_index; [rewrite Ht | rewrite Ht; exact Hn | exact Hct].
    replace (currentSlide t - 1 + Z.of_nat (length (slides s)))
      with (currentSlide t - 1 + 1 * Z.of_nat (length (slides s))) by lia.
    apply Z.mod_add. lia. }
  induction k as [|k [IHl IHc]].
  - simpl Nat.iter. split; [apply prevSlide_slides|].
    rewrite Hstep by (reflexivity || assumption). f_equal.
  - change (Nat.iter (S (S k)) prevSlide s)
      with (prevSlide (Nat.iter (S k) prevSlide s)).
    set (s' := Nat.iter (S k) prevSlide s) in *.
    split; [now rewrite prevSlide_slides|].
    rewrite Hstep; [|exact IHl|].
    + rewrite IHc, Zminus_mod_idemp_l. f_equal. lia.
    + rewrite IHc. apply Z.mod_pos_bound. lia.
Qed.

(** C6. With more than one slide and the index in range, [nextSlide] moves
    the index to [(currentSlide + 1) mod count] and [prevSlide] to
    [(currentSlide - 1 + count) mod count], both in range; [count] calls
    of [nextSlide], or of [prevSlide], bring the index back to where it
    was, and no smaller positive number of calls does. *)
Theorem slide_transitions_cycle (s : Slider) :
  let count := Z.of_nat (length (slides s)) in
  1 < count ->
  0 <= currentSlide s < count ->
  currentSlide (nextSlide s) = (currentSlide s + 1) mod count
  /\ currentSlide (prevSlide s) = (currentSlide s - 1 + count) mod count
  /\ 0 <= currentSlide (nextSlide s) < count
  /\ 0 <= currentSlide (prevSlide s) < count
  /\ currentSlide (Nat.iter (length (slides s)) nextSlide s) = currentSlide s
  /\ currentSlide (Nat.iter (length (slides s)) prevSlide s) = currentSlide s
  /\ (forall k : nat, (0 < k < length (slides s))%nat ->
        currentSlide (Nat.iter k nextSlide s) <> currentSlide s
        /\ currentSlide (Nat.iter k prevSlide s) <> currentSlide s).
Proof.
  intros count Hcount Hcur.
  assert (Hn : 0 < Z.of_nat (length (slides s))) by (fold count; lia).
  assert (Hc : 0 <= currentSlide s) by lia.
  pose proof (nextSlide_index s Hn Hc) as Hnext.
  pose proof (prevSlide_index s Hn Hc) as Hprev.
  fold count in Hnext, Hprev.
  split; [exact Hnext|]. split; [exact Hprev|].
  split; [rewrite Hnext; apply Z.mod_pos_bound; lia|].
  split; [rewrite Hprev; apply Z.mod_pos_bound; lia|].
  split; [|split].
  - destruct (iter_nextSlide (length (slides s)) s Hn Hc) as [[_ E]|E]; [|lia].
    rewrite E. fold count.
    replace (currentSlide s + count) with (currentSlide s + 1 * count) by lia.
    rewrite Z.mod_add by lia. apply Z.mod_small. lia.
  - destruct (iter_prevSlide (length (slides s)) s Hn Hc) as [[_ E]|E]; [|lia].
    rewrite E. fold count.
    replace (currentSlide s - count) with (currentSlide s + (-1) * count) by lia.
    rewrite Z.mod_add by lia. apply Z.mod_small. lia.
  - intros k Hk. split.
    + destruct (iter_nextSlide k s Hn Hc) as [[_ E]|E]; [|lia].
      rewrite E. fold count. intros H.
      destruct (Z_lt_le_dec (currentSlide s + Z.of_nat k) count) as [Hlt|Hge].
      * rewrite Z.mod_small in H by lia. lia.
      * replace (currentSlide s + Z.of_nat k)
          with (currentSlide s + Z.of_nat k - count + 1 * count) in H by lia.
        rewrite Z.mod_add, Z.mod_small in H by lia. lia.
    + destruct (iter_prevSlide k s Hn Hc) as [[_ E]|E]; [|lia].
      rewrite E. fold count. intros H.
      destruct (Z_lt_le_dec (currentSlide s - Z.of_nat k) 0) as [Hlt|Hge].
      * replace (currentSlide s - Z.of_nat k)
          with (currentSlide s - Z.of_nat k + count + (-1) * count) in H by lia.
        rewrite Z.mod_add, Z.mod_small in H by lia. lia.
      * rewrite Z.mod_small in H by lia. lia.
Qed.

End SliderFacts.

(** ** Signup *)

Section SignupFacts.

Import Backend.

Variable trim : string -> string.
Variable bcrypt_hash : string -> string.

(** X11. The long-running server turns away every password of fewer than six
    characters, and leaves the store as it was. *)
Lemma server_signup_rejects_short_password
    (req : Credentials) (db : Db) (p : string) :
  body_password req = Some p ->
  (String.length p < 6)%nat ->
  exists msg : string,
    Server.signup trim bcrypt_hash req db = (json 400 (errorBody msg), db).
Proof.
  intros Hp Hlen. unfold Server.signup, tryCatch.
  destruct (isFalsy (body_username req) || isFalsy (body_password req)).
  - eexists. reflexivity.
  - rewrite Hp. cbn [valueOf].
    apply Nat.ltb_lt in Hlen. rewrite Hlen. eexists. reflexivity.
Qed.

(** C7, on the serverless entry point: a signup with the three-character
    password "abc" against an empty store is answered 201, and the user is
    created. *)
Theorem serverless_signup_accepts_short_password
    (Hhash : bcrypt_hash "abc" <> "") :
  Serverless.signup bcrypt_hash
    {| body_username := Some "monk"; body_password := Some "abc" |} emptyDb =
  (json 201 (JObject [("message", JString "User registered successfully");
                      ("user", JString "monk")]),
   {| users := [{| user_id := 0; username := "monk";
                   password := bcrypt_hash "abc"; role := "admin" |}];
      photos := []; nextId := 1; reachable := true |}).
Proof.
  apply String.eqb_neq in Hhash.
  unfold Serverless.signup, tryCatch, bind, User_countDocuments, User_create,
    Serverless.setter.
  simpl. rewrite Hhash. reflexivity.
Qed.

(** What a signup answered 201 did to the store, in either variant: the
    handler counted [length (users db)] users, and appended one user whose
    role it chose from that count. *)
Lemma signup_created (setter : string -> string) (u0 p0 : string) (db : Db)
    (answer : User -> Response) (onError : Error -> Response)
    (resp : Response) (db' : Db) :
  tryCatch
    (userCount <- User_countDocuments ;;
     newUser <- User_create setter u0 p0
                  (if Nat.eqb userCount 0 then "admin" else "user") ;;
     ret (answer newUser)) onError db = (resp, db') ->
  status resp = 201%Z ->
  (forall e, status (onError e) <> 201%Z) ->
  exists u : User,
    users db' = users db ++ [u]
    /\ role u = (if Nat.eqb (length (users db)) 0 then "admin" else "user").
Proof.
  intros Hrun Hst Herr.
  unfold tryCatch, bind, User_countDocuments, User_create, ret in Hrun.
  destruct (reachable db) eqn:Er;
    [|injection Hrun as <- _; now apply Herr in Hst].
  destruct ((setter u0 =? "") || (p0 =? "") || _);
    [injection Hrun as <- _; now apply Herr in Hst|].
  rewrite Er in Hrun. cbn [negb] in Hrun.
  destruct (existsb _ (users db));
    [injection Hrun as <- _; now apply Herr in Hst|].
  injection Hrun as _ <-. eexists. split; reflexivity.
Qed.

(** A signup handled alone, with no other request between its count and
    its create: in either variant, when it succeeds (201) it adds one user
    to the store, and that user's role is 'admin' exactly when the store
    held no user, and 'user' otherwise. *)
Theorem first_user_becomes_admin
    (req : Credentials) (db : Db) (resp : Response) (db' : Db) :
  Serverless.signup bcrypt_hash req db = (resp, db') \/
  Server.signup trim bcrypt_hash req db = (resp, db') ->
  status resp = 201%Z ->
  exists u : User,
    users db' = users db ++ [u]
    /\ (role u = "admin" <-> length (users db) = 0%nat)
    /\ (role u = "user" <-> length (users db) <> 0%nat).
Proof.
  intros Hrun Hst.
  assert (Hcreated : exists u : User,
             users db' = users db ++ [u]
             /\ role u = (if Nat.eqb (length (users db)) 0
                          then "admin" else "user")).
  { destruct Hrun as [Hrun|Hrun].
    - unfold Serverless.signup in Hrun.
      destruct (isFalsy (body_username req) || isFalsy (body_password req)).
      + cbv [tryCatch ret] in Hrun. injection Hrun as <- _. discriminate Hst.
      + eapply signup_created; [exact Hrun|exact Hst|].
        intros e. cbv beta. destruct (isDuplicateKey e); cbn; discriminate.
    - unfold Server.signup in Hrun.
      destruct (isFalsy (body_username req) || isFalsy (body_password req)).
      + cbv [tryCatch ret] in Hrun. injection Hrun as <- _. discriminate Hst.
      + destruct (String.length (valueOf (body_password req)) <? 6)%nat.
        * cbv [tryCatch ret] in Hrun. injection Hrun as <- _. discriminate Hst.
        * eapply signup_created; [exact Hrun|exact Hst|].
          intros e. cbv beta. destruct (isDuplicateKey e); cbn; discriminate. }
  destruct Hcreated as (u & Hu & Hrole). exists u. split; [exact Hu|].
  rewrite Hrole.
  destruct (Nat.eqb_spec (length (users db)) 0) as [E|E]; split; split;
    intros H; try reflexivity; try assumption; try discriminate;
    contradiction.
Qed.

End SignupFacts.

(** ** Login *)

Section LoginFacts.

Import Backend.

Variable trim : string -> string.
Variable bcrypt_compare : string -> string -> bool.
Variable jwt_sign : N -> string -> string -> string -> string.
Variable JWT_SECRET : option string.

(** The body both variants of the login handler share, over the setter of
    their schema. *)
Lemma login_refuses (setter : string -> string)
    (answer : User -> string -> Response)
    (req : Credentials) (db : Db) :
  AuthFails setter bcrypt_compare req db ->
  tryCatch
    (found <- User_findOne setter (body_username req) ;;
     match found with
     | None => ret invalidCredentials
     | Some user =>
         isPasswordValid <-
           compareWith bcrypt_compare (body_password req) (password user) ;;
         if negb isPasswordValid then ret invalidCredentials
         else
           token <- signWith jwt_sign JWT_SECRET user ;;
           ret (answer user token)
     end)
    (fun _ => json 500 (errorBody "Login failed")) db =
  (invalidCredentials, db).
Proof.
  intros [Hr Hcause].
  unfold tryCatch, bind, User_findOne. rewrite Hr. cbn [negb].
  destruct Hcause as [Hnone|(u & p & Hsome & Hp & Hcmp)].
  - rewrite Hnone. reflexivity.
  - rewrite Hsome, Hp. cbn [compareWith ret]. rewrite Hcmp. reflexivity.
Qed.

(** The two refusals the login handlers write out. In either variant, a
    login whose username selects no user, or whose password, a string,
    does not match the stored hash, is answered 401 with the body
    [{ error: 'Invalid credentials' }] and leaves the store as it was: the
    answer is the same for these two causes. *)
Theorem login_failure_causes_indistinguishable
    (req : Credentials) (db : Db) :
  (AuthFails Serverless.setter bcrypt_compare req db ->
   Serverless.login bcrypt_compare jwt_sign JWT_SECRET req db =
     ({| status := 401;
         body := JObject [("error", JString "Invalid credentials")] |}, db))
  /\ (AuthFails (Server.setter trim) bcrypt_compare req db ->
      Server.login trim bcrypt_compare jwt_sign JWT_SECRET req db =
        ({| status := 401;
            body := JObject [("error", JString "Invalid credentials")] |}, db)).
Proof.
  split; intros Hfail.
  - unfold Serverless.login. now apply login_refuses.
  - unfold Server.login. now apply login_refuses.
Qed.

End LoginFacts.

(** ** The photo listing *)

Section PhotoFacts.

Import Backend.

Lemma insertByDate_Permutation (p : Photo) (l : list Photo) :
  Permutation (p :: l) (insertByDate p l).
Proof.
  induction l as [|q l IH]; simpl; [reflexivity|].
  destruct (uploadDate q <? uploadDate p)%Z; [reflexivity|].
  rewrite perm_swap. now apply perm_skip.
Qed.

Lemma sortMostRecentFirst_Permutation (l : list Photo) :
  Permutation l (sortMostRecentFirst l).
Proof.
  induction l as [|p l IH]; simpl; [constructor|].
  rewrite <- insertByDate_Permutation. now apply perm_skip.
Qed.

Lemma insertByDate_sorted (p : Photo) (l : list Photo) :
  MostRecentFirst l -> MostRecentFirst (insertByDate p l).
Proof.
  unfold MostRecentFirst. induction 1 as [|q l Hs IH Hq]; simpl.
  - repeat constructor.
  - destruct (Z.ltb_spec (uploadDate q) (uploadDate p)) as [Hlt|Hge].
    + constructor; [now constructor|].
      constructor; [lia|].
      eapply Forall_impl; [|exact Hq]. simpl. intros r Hr. lia.
    + constructor; [exact IH|].
      eapply Permutation_Forall; [apply insertByDate_Permutation|].
      constructor; [lia | exact Hq].
Qed.

Lemma sortMostRecentFirst_sorted (l : list Photo) :
  MostRecentFirst (sortMostRecentFirst l).
Proof.
  induction l as [|p l IH]; simpl.
  - constructor.
  - now apply insertByDate_sorted.
Qed.

(** C9 as stated fails on the long-running server: with no photo
    persisted it answers the empty list, not the placeholder entries. *)
Lemma server_lists_nothing_for_empty_store :
  Server.photosHandler emptyDb = (json 200 (JArray []), emptyDb)
  /\ body (fst (Server.photosHandler emptyDb)) <> Serverless.mockPhotos.
Proof. split; [reflexivity | discriminate]. Qed.

(** C9, as the code has it. The listing both variants build is the
    persisted photos, most recent first. When the store answers and holds
    photos, both variants answer 200 with that listing; when it holds
    none, the serverless variant answers with the two placeholder entries
    and the long-running server with the empty list; when the store does
    not answer, the serverless variant answers 200 with the placeholders
    and the long-running server 500. *)
Theorem photo_listing_most_recent_first (db : Db) :
  let listing := sortMostRecentFirst (photos db) in
  MostRecentFirst listing
  /\ Permutation (photos db) listing
  /\ Serverless.photosHandler db =
       (json 200 (if reachable db
                  then match photos db with
                       | [] => Serverless.mockPhotos
                       | _ :: _ => JArray (List.map JPhoto listing)
                       end
                  else Serverless.mockPhotos), db)
  /\ Server.photosHandler db =
       (if reachable db
        then json 200 (match photos db with
                       | [] => JArray []
                       | _ :: _ => JArray (List.map JPhoto listing)
                       end)
        else json 500 (errorBody "Failed to fetch photos"), db).
Proof.
  intros listing.
  split; [apply sortMostRecentFirst_sorted|].
  split; [apply sortMostRecentFirst_Permutation|].
  pose proof (sortMostRecentFirst_Permutation (photos db)) as Hperm.
  fold listing in Hperm.
  unfold Serverless.photosHandler, Server.photosHandler, tryCatch, bind,
    Photo_find_sorted.
  destruct (reachable db); [|split; reflexivity].
  fold listing. split.
  - destruct (photos db) as [|p l] eqn:E.
    + apply Permutation_nil in Hperm. rewrite Hperm. reflexivity.
    + destruct listing as [|q listing'] eqn:El; [|reflexivity].
      apply Permutation_sym, Permutation_nil in Hperm. discriminate.
  - destruct (photos db) as [|p l] eqn:E; [|reflexivity].
    apply Permutation_nil in Hperm. rewrite Hperm. reflexivity.
Qed.

End PhotoFacts.

(** ** The theorems at work on examples *)

Section Examples.

Import Frontend Backend.

Lemma filtered_is_selected_subsequence_witness :
  JS.ascii_toLowerCase "" = "" /\
  Subsequence_of (Selected JS.ascii_toLowerCase "all" "East Sikkim" "ENCHEY")
    MONASTERY_LOCATIONS
    (filtered JS.ascii_toLowerCase MONASTERY_LOCATIONS
       "all" "East Sikkim" "ENCHEY").
Proof.
  split; [reflexivity|].
  apply (filtered_is_selected_subsequence JS.ascii_toLowerCase).
  reflexivity.
Defined.

Lemma filtered_wildcards_identity_witness :
  JS.ascii_toLowerCase "" = "" /\
  filtered JS.ascii_toLowerCase MONASTERY_LOCATIONS "all" "all" "" =
    MONASTERY_LOCATIONS.
Proof.
  split; [reflexivity|].
  apply (filtered_wildcards_identity JS.ascii_toLowerCase).
  reflexivity.
Defined.

Lemma nyingma_scenario_witness :
  let st := setControls "Nyingma" "all" "" (initMap (initialPage untouched)) in
  JS.ascii_toLowerCase "" = ""
  /\ sectFilter (document st) = "Nyingma"
  /\ locationFilter (document st) = "all"
  /\ searchInput (document st) = ""
  /\ searchFeedback_textContent
       (document (filterMonasteries JS.ascii_toLowerCase st)) =
     "Found 6 monasteries matching your criteria.".
Proof.
  intros st. repeat (split; [reflexivity|]).
  apply (nyingma_scenario JS.ascii_toLowerCase eq_refl st);
    reflexivity.
Defined.

Lemma addMarkers_one_marker_per_record_witness :
  let st := initMap (initialPage untouched) in
  let locations := List.firstn 2 MONASTERY_LOCATIONS in
  page_ok st = true
  /\ length (layers (markers st)) = 9%nat
  /\ length (layers (markers (addMarkers locations st))) = 2%nat
  /\ (forall m, In m (layers (markers st)) ->
        ~ In m (layers (markers (addMarkers locations st)))).
Proof.
  intros st locations. split; [reflexivity|]. split; [reflexivity|].
  destruct (addMarkers_one_marker_per_record locations st)
    as (_ & Hlen & _ & _ & Hgone); [reflexivity|].
  split; [exact Hlen | exact Hgone].
Defined.

Lemma markers_added_to_attached_group_after_initMap_witness :
  let st := run JS.ascii_toLowerCase [InitMap; SetControls "Kagyu" "all" ""]
              (initialPage untouched) in
  exists evs : list Event,
    history (perform JS.ascii_toLowerCase CallFilter st) = history st ++ evs
    /\ Forall (fun e => wasAttached e = true) evs.
Proof.
  intros st.
  destruct (markers_added_to_attached_group_after_initMap
              JS.ascii_toLowerCase untouched
              [InitMap; SetControls "Kagyu" "all" ""] CallFilter)
    as (evs & Hh & _ & Hfilter).
  exists evs. split; [exact Hh|].
  apply Hfilter; [discriminate | left; reflexivity].
Defined.

Lemma slide_transitions_cycle_witness :
  (1 < Z.of_nat (length (slides threeSlides)))%Z
  /\ (0 <= currentSlide threeSlides
         < Z.of_nat (length (slides threeSlides)))%Z
  /\ currentSlide (nextSlide threeSlides) = 2%Z
  /\ currentSlide (Nat.iter 3 nextSlide threeSlides) = 1%Z
  /\ currentSlide (Nat.iter 3 prevSlide threeSlides) = 1%Z.
Proof.
  assert (H1 : (1 < Z.of_nat (length (slides threeSlides)))%Z)
    by (simpl; lia).
  assert (H2 : (0 <= currentSlide threeSlides
                  < Z.of_nat (length (slides threeSlides)))%Z)
    by (simpl; lia).
  destruct (slide_transitions_cycle threeSlides H1 H2)
    as (Hn & _ & _ & _ & Hnext & Hprev & _).
  split; [exact H1|]. split; [exact H2|].
  split; [rewrite Hn; reflexivity|].
  split; [exact Hnext | exact Hprev].
Defined.

Lemma serverless_signup_accepts_short_password_witness :
  standInHash "abc" <> ""
  /\ status (fst (Serverless.signup standInHash
                    {| body_username := Some "monk";
                       body_password := Some "abc" |} emptyDb)) = 201%Z
  /\ List.map username
       (users (snd (Serverless.signup standInHash
                      {| body_username := Some "monk";
                         body_password := Some "abc" |} emptyDb))) = ["monk"].
Proof.
  assert (H : standInHash "abc" <> "") by discriminate.
  split; [exact H|].
  rewrite (serverless_signup_accepts_short_password standInHash H).
  split; reflexivity.
Defined.

Lemma first_user_becomes_admin_witness :
  let req := {| body_username := Some "monk";
                body_password := Some "secret1" |} in
  let out := Server.signup (fun s => s) standInHash req emptyDb in
  status (fst out) = 201%Z
  /\ exists u : User,
       users (snd out) = users emptyDb ++ [u]
       /\ (role u = "admin" <-> length (users emptyDb) = 0%nat)
       /\ (role u = "user" <-> length (users emptyDb) <> 0%nat).
Proof.
  intros req out. split; [reflexivity|].
  apply (first_user_becomes_admin (fun s => s) standInHash req emptyDb
           (fst out) (snd out)).
  - right. reflexivity.
  - reflexivity.
Defined.

Lemma login_failure_causes_indistinguishable_witness :
  let unknown := {| body_username := Some "nobody";
                    body_password := Some "secret1" |} in
  let mistaken := {| body_username := Some "monk";
                     body_password := Some "secret2" |} in
  Serverless.login standInCompare standInSign (Some "key") unknown oneUserDb =
    Serverless.login standInCompare standInSign (Some "key") mistaken oneUserDb
  /\ Server.login (fun s => s) standInCompare standInSign (Some "key")
       unknown oneUserDb =
     Server.login (fun s => s) standInCompare standInSign (Some "key")
       mistaken oneUserDb.
Proof.
  intros unknown mistaken.
  assert (Hu : forall setter, setter = (fun s : string => s) ->
                 AuthFails setter standInCompare unknown oneUserDb).
  { intros setter ->. split; [reflexivity|]. left. reflexivity. }
  assert (Hm : forall setter, setter = (fun s : string => s) ->
                 AuthFails setter standInCompare mistaken oneUserDb).
  { intros setter ->. split; [reflexivity|]. right.
    eexists. exists "secret2". repeat split; reflexivity. }
  destruct (login_failure_causes_indistinguishable (fun s => s)
              standInCompare standInSign (Some "key") unknown oneUserDb)
    as [U1 U2].
  destruct (login_failure_causes_indistinguishable (fun s => s)
              standInCompare standInSign (Some "key") mistaken oneUserDb)
    as [M1 M2].
  split.
  - rewrite (U1 (Hu _ eq_refl)), (M1 (Hm _ eq_refl)). reflexivity.
  - rewrite (U2 (Hu _ eq_refl)), (M2 (Hm _ eq_refl)). reflexivity.
Defined.

End Examples.

(** * Further properties of the map script *)

Section FilterLaws.

Import Frontend.

Variable toLowerCase : string -> string.

Lemma append_empty_r (s : string) : (s ++ "")%string = s.
Proof. induction s as [|c s IH]; simpl; [reflexivity | now rewrite IH]. Qed.

Lemma includes_refl (s : string) : JS.includes s s = true.
Proof.
  apply includes_iff_Substring. exists ""%string, ""%string.
  simpl. now rewrite append_empty_r.
Qed.

Lemma filter_twice {A : Type} (f g : A -> bool) (l : list A) :
  List.filter f (List.filter g l) = List.filter (fun x => g x && f x) l.
Proof.
  induction l as [|x l IH]; simpl; [reflexivity|].
  destruct (g x); simpl; [destruct (f x)|]; now rewrite IH.
Qed.

(** X1. Typing a record's name, or its region, in any mix of cases that the
    host lower-cases to the same text, with both selectors at "all", finds
    the record. *)
Theorem search_by_name_or_region_finds_record
    (catalog : list Monastery) (r : Monastery) (input : string) :
  In r catalog ->
  toLowerCase input = toLowerCase (name r) \/
  toLowerCase input = toLowerCase (location r) ->
  In r (filtered toLowerCase catalog "all" "all" input).
Proof.
  intros Hin Hsame. unfold filtered. apply filter_In. split; [exact Hin|].
  unfold matches. simpl.
  destruct Hsame as [->| ->]; rewrite includes_refl;
    [reflexivity | apply orb_true_r].
Qed.

(** X2. Filtering what a filter returned, with the same criteria, changes
    nothing. *)
Theorem filtered_idempotent
    (catalog : list Monastery) (category region searchText : string) :
  filtered toLowerCase
    (filtered toLowerCase catalog category region searchText)
    category region searchText =
  filtered toLowerCase catalog category region searchText.
Proof.
  unfold filtered. rewrite filter_twice. apply List.filter_ext.
  intros r. apply andb_diag.
Qed.

Hypothesis toLowerCase_empty : toLowerCase "" = "".

(** X3. The three criteria can be applied one after the other: filtering by
    sect alone, then by region alone, then by text alone gives what the
    three give together. *)
Theorem filtered_one_criterion_at_a_time
    (catalog : list Monastery) (category region searchText : string) :
  filtered toLowerCase
    (filtered toLowerCase
       (filtered toLowerCase catalog category "all" "")
       "all" region "")
    "all" "all" searchText =
  filtered toLowerCase catalog category region searchText.
Proof.
  unfold filtered. rewrite toLowerCase_empty, !filter_twice.
  apply List.filter_ext. intros r. unfold matches.
  rewrite !includes_empty. simpl.
  rewrite !andb_true_r, andb_assoc. reflexivity.
Qed.

End FilterLaws.

Section PageLaws.

Import Frontend.

Variable toLowerCase : string -> string.

(** Everything [filterMonasteries] does to the globals. *)
Lemma filterMonasteries_effect (st : Page) :
  let found := filtered toLowerCase MONASTERY_LOCATIONS
                 (sectFilter (document st)) (locationFilter (document st))
                 (searchInput (document st)) in
  let st' := filterMonasteries toLowerCase st in
  layers (markers st') = stamped found (lastId st)
  /\ lastId st' = (lastId st + N.of_nat (length found))%N
  /\ map st' = map st
  /\ group_map (markers st') = group_map (markers st)
  /\ history st' =
       history st ++
       List.map (fun m => MarkerAdded (leaflet_id m) (attached st))
         (stamped found (lastId st))
  /\ document st' =
       {| sectFilter := sectFilter (document st);
          locationFilter := locationFilter (document st);
          searchInput := searchInput (document st);
          searchFeedback_textContent := feedbackText found;
          searchFeedback_display := "block" |}.
Proof.
  intros found st'. unfold st', filterMonasteries. cbv zeta. fold found.
  destruct (addMarkers_result found st) as (Hl & Hn & Hm & Hg & Hd & Hh).
  cbn [markers lastId map history document].
  rewrite Hd. repeat split; assumption.
Qed.

(** X4. After [filterMonasteries], whatever the page was: the group holds one
    marker per selected record, the feedback element is shown and its text
    carries the number of markers now in the group, and neither the
    controls nor the map have changed. *)
Theorem filterMonasteries_feedback_counts_markers (st : Page) :
  let st' := filterMonasteries toLowerCase st in
  List.map options_monastery (layers (markers st')) =
    filtered toLowerCase MONASTERY_LOCATIONS
      (sectFilter (document st)) (locationFilter (document st))
      (searchInput (document st))
  /\ searchFeedback_textContent (document st') =
       ("Found " ++ JS.length_toString (length (layers (markers st'))) ++
        " monasteries matching your criteria.")%string
  /\ searchFeedback_display (document st') = "block"
  /\ sectFilter (document st') = sectFilter (document st)
  /\ locationFilter (document st') = locationFilter (document st)
  /\ searchInput (document st') = searchInput (document st)
  /\ map st' = map st.
Proof.
  intros st'.
  destruct (filterMonasteries_effect st) as (Hl & _ & Hm & _ & _ & Hd).
  fold st' in Hl, Hm, Hd. rewrite Hl, Hd, Hm, stamped_options, stamped_length.
  repeat split; reflexivity.
Qed.

(** X5. Calling [filterMonasteries] a second time, with the controls as they
    are, shows the same records and the same feedback; the markers are new
    ones: none of the ids of the first call is kept. *)
Theorem filterMonasteries_again_same_view (st : Page) :
  let st1 := filterMonasteries toLowerCase st in
  let st2 := filterMonasteries toLowerCase st1 in
  List.map options_monastery (layers (markers st2)) =
    List.map options_monastery (layers (markers st1))
  /\ document st2 = document st1
  /\ map st2 = map st1
  /\ (forall m1 m2, In m1 (layers (markers st1)) ->
        In m2 (layers (markers st2)) ->
        (leaflet_id m1 < leaflet_id m2)%N).
Proof.
  intros st1 st2.
  destruct (filterMonasteries_effect st) as (Hl1 & Hn1 & _ & _ & _ & Hd1).
  destruct (filterMonasteries_effect st1) as (Hl2 & _ & Hm2 & _ & _ & Hd2).
  fold st1 in Hl1, Hn1, Hd1. fold st2 in Hl2, Hm2, Hd2.
  rewrite Hd1 in Hl2, Hd2. cbn [sectFilter locationFilter searchInput] in Hl2, Hd2.
  split; [rewrite Hl1, Hl2, !stamped_options; reflexivity|].
  split; [rewrite Hd1, Hd2; reflexivity|].
  split; [exact Hm2|].
  intros m1 m2 H1 H2. rewrite Hl1 in H1. rewrite Hl2 in H2.
  eapply Forall_forall in H1; [|apply stamped_ids].
  eapply Forall_forall in H2; [|apply stamped_ids].
  cbv beta in H1, H2. rewrite Hn1 in H2. lia.
Qed.

(** Everything [initMap] does to the globals, whatever the page was. *)
Lemma initMap_effect (st : Page) :
  let st' := initMap st in
  map st' = Some {| map_id := (lastId st + 1)%N; container := "monasteryMap";
                    center := SIKKIM_CENTER; zoom := ZOOM_LEVEL;
                    tiles := [osmTiles] |}
  /\ layers (markers st') = stamped MONASTERY_LOCATIONS (lastId st + 1)
  /\ group_map (markers st') = Some (lastId st + 1)%N
  /\ lastId st' = (lastId st + 1 + N.of_nat (length MONASTERY_LOCATIONS))%N
  /\ document st' = document st.
Proof.
  intros st'. unfold st', initMap.
  set (st1 := match map st with Some old => map_remove old st | None => st end).
  assert (Hid : lastId st1 = lastId st) by (unfold st1; destruct (map st); reflexivity).
  assert (Hdoc : document st1 = document st) by (unfold st1; destruct (map st); reflexivity).
  clearbody st1.
  set (st3 := addTileLayer osmTiles (createMap st1)).
  destruct (addMarkers_result MONASTERY_LOCATIONS st3)
    as (Hl & Hn & Hm & _ & Hd & _).
  set (st4 := addMarkers MONASTERY_LOCATIONS st3) in *. clearbody st4.
  unfold markers_addTo_map. cbn [map markers layers group_map lastId document].
  rewrite Hm, Hl, Hn, Hd. unfold st3. simpl. rewrite Hid, Hdoc.
  repeat split; reflexivity.
Qed.

(** X6. [initMap] always ends with one map at the default centre and zoom,
    carrying exactly one tile layer, with the marker group on it and one
    marker for every record of the catalog, whatever the controls say;
    the controls and the feedback element are left as they were. *)
Theorem initMap_shows_whole_catalog (st : Page) :
  let st' := initMap st in
  (exists m : LMap,
     map st' = Some m /\ center m = SIKKIM_CENTER /\ zoom m = ZOOM_LEVEL
     /\ tiles m = [osmTiles] /\ group_map (markers st') = Some (map_id m))
  /\ List.map options_monastery (layers (markers st')) = MONASTERY_LOCATIONS
  /\ document st' = document st.
Proof.
  intros st'. destruct (initMap_effect st) as (Hm & Hl & Hg & _ & Hd).
  fold st' in Hm, Hl, Hg, Hd. split.
  - eexists. split; [exact Hm|]. repeat split. exact Hg.
  - rewrite Hl, stamped_options. split; [reflexivity | exact Hd].
Qed.

Lemma stamped_increasing (locations : list Monastery) (last : N) :
  StronglySorted N.lt (List.map leaflet_id (stamped locations last)).
Proof.
  revert last. induction locations as [|r l IH]; intros last; simpl.
  - constructor.
  - constructor; [apply IH|].
    apply Forall_map. eapply Forall_impl; [|apply stamped_ids].
    simpl. intros m Hm. lia.
Qed.

Lemma StronglySorted_app_lt (l1 l2 : list N) (bound : N) :
  StronglySorted N.lt l1 -> StronglySorted N.lt l2 ->
  Forall (fun x => (x <= bound)%N) l1 -> Forall (fun x => (bound < x)%N) l2 ->
  StronglySorted N.lt (l1 ++ l2).
Proof.
  intros H1 H2 B1 B2. induction H1 as [|x l1 Hs IH Hx]; simpl; [exact H2|].
  inversion B1 as [|? ? Bx Bl]; subst.
  constructor; [now apply IH|].
  apply Forall_app. split; [exact Hx|].
  eapply Forall_impl; [|exact B2]. simpl. intros y Hy. lia.
Qed.

Lemma IdsGrow_append (st st' : Page) (locations : list Monastery) (b : bool)
    (from : N) :
  IdsGrow st ->
  (lastId st <= from)%N ->
  lastId st' = (from + N.of_nat (length locations))%N ->
  history st' =
    history st ++
    List.map (fun m => MarkerAdded (leaflet_id m) b) (stamped locations from) ->
  IdsGrow st'.
Proof.
  intros [Hs Hb] Hfrom Hn Hh. unfold IdsGrow. rewrite Hh, Hn, map_app, map_map.
  cbn [eventId].
  pose proof (stamped_ids locations from) as Hids.
  split.
  - apply StronglySorted_app_lt with (bound := from).
    + exact Hs.
    + apply stamped_increasing.
    + eapply Forall_impl; [|exact Hb]. simpl. intros x Hx. lia.
    + apply Forall_map. eapply Forall_impl; [|exact Hids].
      simpl. intros m Hm. lia.
  - apply Forall_app. split.
    + eapply Forall_impl; [|exact Hb]. simpl. intros x Hx. lia.
    + apply Forall_map. eapply Forall_impl; [|exact Hids].
      simpl. intros m Hm. lia.
Qed.

Lemma perform_IdsGrow (a : Action) (st : Page) :
  page_ok st = true -> IdsGrow st -> IdsGrow (perform toLowerCase a st).
Proof.
  intros Hok Hg. destruct a as [|s l t| |]; unfold perform, search.
  - destruct (initMap_result st Hok) as (Hh & _ & _).
    destruct (initMap_effect st) as (_ & _ & _ & Hn & _).
    eapply IdsGrow_append; [exact Hg| |exact Hn|exact Hh]. lia.
  - exact Hg.
  - destruct (filterMonasteries_effect st) as (_ & Hn & _ & _ & Hh & _).
    eapply IdsGrow_append; [exact Hg| |exact Hn|exact Hh]. lia.
  - destruct (filterMonasteries_effect st) as (_ & Hn & _ & _ & Hh & _).
    eapply IdsGrow_append; [exact Hg| |exact Hn|exact Hh]. lia.
Qed.

(** X7. In every execution from the loaded page, the ids of the markers added
    so far, in the order they were added, grow strictly: no id is ever
    given to two markers, across renders and across re-initialisations of
    the map. *)
Theorem marker_ids_never_reused (doc : Document) (acts : list Action) :
  let st := run toLowerCase acts (initialPage doc) in
  StronglySorted N.lt (List.map eventId (history st))
  /\ NoDup (List.map eventId (history st)).
Proof.
  intros st.
  assert (Hg : IdsGrow st).
  { unfold st. induction acts as [|a acts IH] using rev_ind.
    - split; constructor.
    - rewrite run_snoc. apply perform_IdsGrow; [apply run_page_ok | exact IH]. }
  destruct Hg as [Hs _]. split; [exact Hs|].
  induction Hs as [|x l _ IH Hx]; constructor; [|exact IH].
  intros Hin. rewrite Forall_forall in Hx. specialize (Hx x Hin). lia.
Qed.

End PageLaws.

(** * Further properties of the slider *)

Section SliderLaws.

Import Frontend.
Open Scope Z_scope.

Lemma isActive_remove (s : Slide) :
  isActive (classList_remove "active" s) = false.
Proof.
  unfold isActive, classList_remove. cbn [classList].
  induction (classList s) as [|c l IH]; simpl; [reflexivity|].
  destruct (c =? "active")%string eqn:E; simpl; [exact IH|].
  now rewrite E.
Qed.

Lemma isActive_add (s : Slide) : isActive (classList_add "active" s) = true.
Proof.
  unfold isActive, classList_add. cbn [classList].
  destruct (existsb (fun x => (x =? "active")%string) (classList s)) eqn:E;
    [exact E|].
  rewrite existsb_app, E. reflexivity.
Qed.

Lemma otherClasses_remove (s : Slide) :
  otherClasses (classList_remove "active" s) = otherClasses s.
Proof.
  unfold otherClasses, classList_remove. cbn [classList].
  rewrite filter_twice. apply List.filter_ext. intros x. apply andb_diag.
Qed.

Lemma otherClasses_add (s : Slide) :
  otherClasses (classList_add "active" s) = otherClasses s.
Proof.
  unfold otherClasses, classList_add. cbn [classList].
  destruct (existsb _ (classList s)); [reflexivity|].
  rewrite filter_app. simpl. apply app_nil_r.
Qed.

Lemma classList_remove_twice (s : Slide) :
  classList_remove "active" (classList_remove "active" s) =
  classList_remove "active" s.
Proof.
  unfold classList_remove. cbn [classList]. f_equal.
  rewrite filter_twice. apply List.filter_ext. intros x. apply andb_diag.
Qed.

Lemma classList_remove_add (s : Slide) :
  classList_remove "active" (classList_add "active" s) =
  classList_remove "active" s.
Proof.
  unfold classList_remove, classList_add. cbn [classList]. f_equal.
  destruct (existsb _ (classList s)); [reflexivity|].
  rewrite filter_app. simpl. apply app_nil_r.
Qed.

Lemma activateFrom_again (i : nat) (index index' : Z) (l : list Slide) :
  activateFrom i index (activateFrom i index' l) = activateFrom i index l.
Proof.
  revert i. induction l as [|x l IH]; intros i; simpl; [reflexivity|].
  rewrite IH. f_equal.
  destruct (Z.of_nat i =? index'); destruct (Z.of_nat i =? index);
    now rewrite ?classList_remove_add, ?classList_remove_twice.
Qed.

Lemma showSlide_again (index index' : Z) (s : Slider) :
  showSlide index (showSlide index' s) = showSlide index s.
Proof. unfold showSlide. cbn [slides]. now rewrite activateFrom_again. Qed.

Lemma activateFrom_nth (l : list Slide) (i : nat) (index : Z)
    (j : nat) (slide : Slide) :
  nth_error (activateFrom i index l) j = Some slide ->
  isActive slide = (Z.of_nat (i + j) =? index)
  /\ exists old : Slide,
       nth_error l j = Some old /\ otherClasses slide = otherClasses old.
Proof.
  revert i j. induction l as [|x l IH]; intros i j H.
  - destruct j; discriminate H.
  - destruct j as [|j]; simpl in H.
    + injection H as <-. rewrite Nat.add_0_r. split.
      * destruct (Z.of_nat i =? index);
          [apply isActive_add | apply isActive_remove].
      * exists x. split; [reflexivity|].
        destruct (Z.of_nat i =? index);
          now rewrite ?otherClasses_add, otherClasses_remove.
    + apply IH in H. replace (i + S j)%nat with (S i + j)%nat by lia.
      exact H.
Qed.

Lemma activateFrom_count (l : list Slide) (i : nat) (index : Z) :
  length (List.filter isActive (activateFrom i index l)) =
  if (Z.of_nat i <=? index) && (index <? Z.of_nat i + Z.of_nat (length l))
  then 1%nat else 0%nat.
Proof.
  revert i. induction l as [|x l IH]; intros i.
  - simpl. destruct (Z.leb_spec (Z.of_nat i) index);
      destruct (Z.ltb_spec index (Z.of_nat i + 0)); simpl; lia.
  - cbn [activateFrom List.filter].
    assert (Hhead : isActive
              (if Z.of_nat i =? index
               then classList_add "active" (classList_remove "active" x)
               else classList_remove "active" x) = (Z.of_nat i =? index)).
    { destruct (Z.of_nat i =? index);
        [apply isActive_add | apply isActive_remove]. }
    rewrite Hhead. cbn [length].
    destruct (Z.eqb_spec (Z.of_nat i) index) as [E|E]; cbn [length];
      rewrite IH;
      destruct (Z.leb_spec (Z.of_nat (S i)) index);
      destruct (Z.leb_spec (Z.of_nat i) index);
      destruct (Z.ltb_spec index (Z.of_nat (S i) + Z.of_nat (length l)));
      destruct (Z.ltb_spec index (Z.of_nat i + Z.of_nat (S (length l))));
      simpl; lia.
Qed.

Lemma showSlide_active_at (index : Z) (t : Slider) (j : nat) (slide : Slide) :
  nth_error (slides (showSlide index t)) j = Some slide ->
  isActive slide = (Z.of_nat j =? index).
Proof.
  unfold showSlide. cbn [slides]. intros H.
  apply activateFrom_nth in H as [H _]. exact H.
Qed.

(** X8. After [showSlide(index)]: the index is stored, a slide is active
    exactly when its position is [index], so exactly one slide is active
    when [index] is a position and none otherwise; no slide is added or
    dropped, and every class name other than 'active' stays as it was. *)
Theorem showSlide_marks_exactly_one (index : Z) (s : Slider) :
  let s' := showSlide index s in
  currentSlide s' = index
  /\ length (slides s') = length (slides s)
  /\ (forall (j : nat) (slide : Slide),
        nth_error (slides s') j = Some slide ->
        isActive slide = (Z.of_nat j =? index))
  /\ List.map otherClasses (slides s') = List.map otherClasses (slides s)
  /\ length (List.filter isActive (slides s')) =
       if (0 <=? index) && (index <? Z.of_nat (length (slides s)))
       then 1%nat else 0%nat.
Proof.
  intros s'. unfold s', showSlide. cbn [currentSlide slides].
  split; [reflexivity|]. split; [apply activateFrom_length|].
  split; [|split].
  - intros j slide H. apply activateFrom_nth in H as [H _]. exact H.
  - apply nth_error_ext. intros j. rewrite !nth_error_map.
    destruct (nth_error (activateFrom 0 index (slides s)) j) as [slide|] eqn:E.
    + apply activateFrom_nth in E as (_ & old & -> & Ho). simpl. now rewrite Ho.
    + apply nth_error_None in E. rewrite activateFrom_length in E.
      apply nth_error_None in E. now rewrite E.
  - rewrite activateFrom_count. reflexivity.
Qed.

(** X9. With at least one slide and the index in range, [prevSlide] undoes
    [nextSlide] and [nextSlide] undoes [prevSlide]: either way round the
    slider is as [showSlide] of the index it had leaves it. *)
Theorem nextSlide_prevSlide_inverse (s : Slider) :
  0 <= currentSlide s < Z.of_nat (length (slides s)) ->
  prevSlide (nextSlide s) = showSlide (currentSlide s) s
  /\ nextSlide (prevSlide s) = showSlide (currentSlide s) s.
Proof.
  intros Hcur.
  assert (Hn : 0 < Z.of_nat (length (slides s))) by lia.
  assert (Hc : 0 <= currentSlide s) by lia.
  pose proof (nextSlide_index s Hn Hc) as Hnx.
  pose proof (prevSlide_index s Hn Hc) as Hpv.
  pose proof (nextSlide_slides s) as Hnl.
  pose proof (prevSlide_slides s) as Hpl.
  set (n := Z.of_nat (length (slides s))) in *.
  split.
  - assert (Hi : currentSlide (prevSlide (nextSlide s)) = currentSlide s).
    { rewrite prevSlide_index.
      - rewrite Hnl, Hnx. fold n.
        replace ((currentSlide s + 1) mod n - 1 + n)
          with ((currentSlide s + 1) mod n - 1 + 1 * n) by lia.
        rewrite Z.mod_add, Zminus_mod_idemp_l by lia.
        replace (currentSlide s + 1 - 1) with (currentSlide s) by lia.
        apply Z.mod_small. lia.
      - rewrite Hnl. exact Hn.
      - rewrite Hnx. apply Z.mod_pos_bound. exact Hn. }
    change (prevSlide (nextSlide s))
      with (showSlide (currentSlide (prevSlide (nextSlide s))) (nextSlide s)).
    rewrite Hi. unfold nextSlide. apply showSlide_again.
  - assert (Hi : currentSlide (nextSlide (prevSlide s)) = currentSlide s).
    { rewrite nextSlide_index.
      - rewrite Hpl, Hpv. fold n.
        rewrite Z.add_mod_idemp_l by lia.
        replace (currentSlide s - 1 + n + 1) with (currentSlide s + 1 * n) by lia.
        rewrite Z.mod_add by lia. apply Z.mod_small. lia.
      - rewrite Hpl. exact Hn.
      - rewrite Hpv. apply Z.mod_pos_bound. exact Hn. }
    change (nextSlide (prevSlide s))
      with (showSlide (currentSlide (nextSlide (prevSlide s))) (prevSlide s)).
    rewrite Hi. unfold prevSlide. apply showSlide_again.
Qed.

(** X10. When the page has at least one slide, the script shows the first one,
    and after [k] firings of the timer the slide at position
    [k mod count] is the one that is active, and the only one. *)
Theorem autoplay_visits_slides_in_turn (found : list Slide) (k : nat) :
  found <> [] ->
  let s := Nat.iter k nextSlide (loadSlider found) in
  currentSlide s = Z.of_nat k mod Z.of_nat (length found)
  /\ length (slides s) = length found
  /\ (forall (j : nat) (slide : Slide),
        nth_error (slides s) j = Some slide ->
        isActive slide = (Z.of_nat j =? Z.of_nat k mod Z.of_nat (length found))).
Proof.
  intros Hne s.
  assert (Hpos : (0 < length found)%nat) by (destruct found; simpl; [congruence | lia]).
  assert (Hload : loadSlider found =
                  showSlide 0 {| currentSlide := 0; slides := found |}).
  { unfold loadSlider. apply Nat.ltb_lt in Hpos. now rewrite Hpos. }
  assert (Hlen0 : length (slides (loadSlider found)) = length found).
  { rewrite Hload. apply activateFrom_length. }
  assert (Hcur0 : currentSlide (loadSlider found) = 0) by now rewrite Hload.
  assert (Hshape : exists t, s = showSlide (currentSlide s) t).
  { unfold s. destruct k as [|k].
    - simpl. rewrite Hload. eexists. reflexivity.
    - simpl. eexists. reflexivity. }
  assert (Hidx : currentSlide s = Z.of_nat k mod Z.of_nat (length found)
                 /\ length (slides s) = length found).
  { unfold s.
    destruct (iter_nextSlide k (loadSlider found)) as [[Hl Hc]| ->].
    - rewrite Hlen0. lia.
    - rewrite Hcur0. lia.
    - rewrite Hl, Hc, Hlen0, Hcur0. split; [reflexivity | reflexivity].
    - simpl. rewrite Hcur0, Hlen0. split; [|reflexivity].
      symmetry. apply Z.mod_small. lia. }
  destruct Hidx as [Hc Hl]. split; [exact Hc|]. split; [exact Hl|].
  intros j slide H. destruct Hshape as [t Ht]. rewrite Ht in H.
  apply showSlide_active_at in H. now rewrite <- Hc.
Qed.

End SliderLaws.

(** * Further properties of the backend *)

Section SignupLaws.

Import Backend.

Variable trim : string -> string.
Variable bcrypt_hash : string -> string.

(** What the part of both signup handlers after their checks does: it
    answers through [onError] and leaves the store alone, or it appends
    the new user, whose username was not taken, and answers through
    [answer]. *)
Lemma signup_core (setter : string -> string) (u0 p0 : string) (db : Db)
    (answer : User -> Response) (onError : Error -> Response) :
  let out :=
    tryCatch
      (userCount <- User_countDocuments ;;
       newUser <- User_create setter u0 p0
                    (if Nat.eqb userCount 0 then "admin" else "user") ;;
       ret (answer newUser)) onError db in
  let doc := {| user_id := nextId db; username := setter u0; password := p0;
                role := if Nat.eqb (length (users db)) 0
                        then "admin" else "user" |} in
  (exists e : Error,
     out = (onError e, db)
     /\ (isDuplicateKey e = true <->
         reachable db = true /\ setter u0 <> "" /\ p0 <> ""
         /\ List.existsb (fun x => username x =? setter u0) (users db) = true))
  \/ (out = (answer doc,
             {| users := users db ++ [doc]; photos := photos db;
                nextId := (nextId db + 1)%N; reachable := reachable db |})
      /\ reachable db = true
      /\ setter u0 <> ""
      /\ p0 <> ""
      /\ List.existsb (fun x => username x =? setter u0) (users db) = false).
Proof.
  intros out doc.
  unfold out, tryCatch, bind, User_countDocuments, User_create, ret.
  cbv beta.
  destruct (reachable db) eqn:Er; cbv beta iota.
  - assert (Hrole : negb (((if Nat.eqb (length (users db)) 0
                            then "admin" else "user") =? "admin")
                          || ((if Nat.eqb (length (users db)) 0
                               then "admin" else "user") =? "user")) = false)
      by (destruct (Nat.eqb (length (users db)) 0); reflexivity).
    rewrite Hrole, Er, orb_false_r. cbn [negb].
    destruct (String.eqb_spec (setter u0) "") as [Eu|Eu]; cbn [orb].
    { left. exists validationError. split; [reflexivity|].
      split; [discriminate | intros (_ & H & _); contradiction]. }
    destruct (String.eqb_spec p0 "") as [Ep|Ep].
    { left. exists validationError. split; [reflexivity|].
      split; [discriminate | intros (_ & _ & H & _); contradiction]. }
    destruct (existsb (fun x => username x =? setter u0) (users db)) eqn:Ex.
    + left. exists duplicateKey. split; [reflexivity|].
      split; [intros _; repeat split; assumption | reflexivity].
    + right. repeat split; assumption.
  - left. exists storeError. split; [reflexivity|].
    split; [discriminate | intros (H & _); discriminate].
Qed.

Lemma isFalsy_false (v : option string) :
  isFalsy v = false -> v = Some (valueOf v) /\ valueOf v <> "".
Proof.
  destruct v as [x|]; simpl; [|discriminate].
  intros H. split; [reflexivity|]. now apply String.eqb_neq.
Qed.

(** X12. A signup without a username or without a password, the field missing
    or empty, is answered 400 by both entry points, and the store is left
    as it was. *)
Theorem signup_requires_both_fields (req : Credentials) (db : Db) :
  isFalsy (body_username req) = true \/ isFalsy (body_password req) = true ->
  Serverless.signup bcrypt_hash req db =
    (json 400 (errorBody "Username and password are required"), db)
  /\ Server.signup trim bcrypt_hash req db =
       (json 400 (errorBody "Username and password are required"), db).
Proof.
  intros H.
  assert (E : isFalsy (body_username req) || isFalsy (body_password req) = true)
    by (apply orb_true_iff; exact H).
  unfold Serverless.signup, Server.signup. rewrite E. split; reflexivity.
Qed.

(** X13. A signup whose username is already in the store is answered 409 by
    both entry points, when it passes their checks and the store answers;
    the store is left as it was. For the long-running server the username
    is compared after trimming. *)
Theorem signup_duplicate_username_is_409
    (u p : string) (db : Db) :
  reachable db = true ->
  u <> "" ->
  bcrypt_hash p <> "" ->
  (List.existsb (fun x => username x =? u) (users db) = true ->
   p <> "" ->
   Serverless.signup bcrypt_hash
     {| body_username := Some u; body_password := Some p |} db =
     (json 409 (errorBody "Username already exists."), db))
  /\ (List.existsb (fun x => username x =? trim u) (users db) = true ->
      trim u <> "" ->
      (6 <= String.length p)%nat ->
      Server.signup trim bcrypt_hash
        {| body_username := Some u; body_password := Some p |} db =
        (json 409 (errorBody "Username already exists."), db)).
Proof.
  intros Hr Hu Hh.
  apply String.eqb_neq in Hu.
  split.
  - intros Hex Hp. apply String.eqb_neq in Hp.
    unfold Serverless.signup. cbn [body_username body_password isFalsy valueOf].
    rewrite Hu, Hp. cbn [orb].
    match goal with
    | |- tryCatch ?m ?h db = _ =>
        destruct (signup_core Serverless.setter u (bcrypt_hash p) db
                    (fun newUser => json 201 (JObject [("message", JString "User registered successfully");
                               ("user", JString (username newUser))])) h)
          as [(e & -> & Hdup)|(_ & _ & _ & _ & Hnot)]
    end.
    + assert (Hd : isDuplicateKey e = true).
      { apply Hdup. repeat split; try assumption.
        unfold Serverless.setter. now apply String.eqb_neq. }
      now rewrite Hd.
    + unfold Serverless.setter in Hnot. congruence.
  - intros Hex Ht Hlen.
    assert (Hp : (p =? "") = false).
    { destruct p; [simpl in Hlen; lia | reflexivity]. }
    unfold Server.signup. cbn [body_username body_password isFalsy valueOf].
    rewrite Hu, Hp. cbn [orb].
    assert (Hl : (String.length p <? 6)%nat = false) by (apply Nat.ltb_ge; exact Hlen).
    rewrite Hl.
    match goal with
    | |- tryCatch ?m ?h db = _ =>
        destruct (signup_core (Server.setter trim) u (bcrypt_hash p) db
                    (fun newUser => json 201 (JObject [("message", JString "User registered successfully!");
                                 ("user", JObject [("username", JString (username newUser));
                                                   ("role", JString (role newUser))])])) h)
          as [(e & -> & Hdup)|(_ & _ & _ & _ & Hnot)]
    end.
    + assert (Hd : isDuplicateKey e = true).
      { apply Hdup. repeat split; assumption. }
      now rewrite Hd.
    + unfold Server.setter in Hnot. congruence.
Qed.

(** What a signup does to the store, through either entry point: nothing,
    or one user appended whose username no stored user had. *)
Lemma signupVia_store (e : Site.EntryPoint) (req : Credentials) (db : Db) :
  let db' := snd (Site.signupVia trim bcrypt_hash e req db) in
  db' = db
  \/ exists doc : User,
       db' = {| users := users db ++ [doc]; photos := photos db;
                nextId := (nextId db + 1)%N; reachable := reachable db |}
       /\ status (fst (Site.signupVia trim bcrypt_hash e req db)) = 201%Z
       /\ role doc = (if Nat.eqb (length (users db)) 0 then "admin" else "user")
       /\ List.existsb (fun x => username x =? username doc) (users db) = false.
Proof.
  intros db'. unfold db'. destruct e; unfold Site.signupVia.
  - unfold Serverless.signup.
    destruct (isFalsy (body_username req) || isFalsy (body_password req));
      [left; reflexivity|].
    match goal with
    | |- context [tryCatch ?m ?h db] =>
        destruct (signup_core Serverless.setter (valueOf (body_username req))
                    (bcrypt_hash (valueOf (body_password req))) db
                    (fun newUser => json 201 (JObject [("message", JString "User registered successfully");
                               ("user", JString (username newUser))])) h)
          as [(er & -> & _)|(-> & _ & _ & _ & Hnot)]
    end; [left; reflexivity|].
    right. eexists. split; [reflexivity|]. repeat split. exact Hnot.
  - unfold Server.signup.
    destruct (isFalsy (body_username req) || isFalsy (body_password req));
      [left; reflexivity|].
    destruct (String.length (valueOf (body_password req)) <? 6)%nat;
      [left; reflexivity|].
    match goal with
    | |- context [tryCatch ?m ?h db] =>
        destruct (signup_core (Server.setter trim) (valueOf (body_username req))
                    (bcrypt_hash (valueOf (body_password req))) db
                    (fun newUser => json 201 (JObject [("message", JString "User registered successfully!");
                                 ("user", JObject [("username", JString (username newUser));
                                                   ("role", JString (role newUser))])])) h)
          as [(er & -> & _)|(-> & _ & _ & _ & Hnot)]
    end; [left; reflexivity|].
    right. eexists. split; [reflexivity|]. repeat split. exact Hnot.
Qed.

(** X14. A signup, through either entry point and whatever the request, never
    touches the photos or the users already stored, and changes the store
    only when it answers 201. *)
Theorem signup_changes_store_only_on_201
    (e : Site.EntryPoint) (req : Credentials) (db : Db) :
  let out := Site.signupVia trim bcrypt_hash e req db in
  photos (snd out) = photos db
  /\ (exists added : list User, users (snd out) = users db ++ added)
  /\ (status (fst out) <> 201%Z -> snd out = db).
Proof.
  intros out. unfold out.
  destruct (signupVia_store e req db) as [E|(doc & E & Hst & _)].
  - rewrite E. split; [reflexivity|]. split; [|reflexivity].
    exists []. now rewrite app_nil_r.
  - rewrite E. split; [reflexivity|]. split; [exists [doc]; reflexivity|].
    intros H. contradiction.
Qed.

Lemma UniqueUsernames_append (l : list User) (doc : User) :
  UniqueUsernames l ->
  List.existsb (fun x => username x =? username doc) l = false ->
  UniqueUsernames (l ++ [doc]).
Proof.
  unfold UniqueUsernames. intros Hu Hn. rewrite map_app. simpl.
  apply NoDup_app; [exact Hu | repeat constructor; intros [] | ].
  intros n Hin [<-|[]].
  apply in_map_iff in Hin as (x & Hx & Hin).
  assert (Ht : existsb (fun x => username x =? username doc) l = true).
  { apply existsb_exists. exists x. split; [exact Hin|]. now apply String.eqb_eq. }
  congruence.
Qed.

Lemma OnlyFirstIsAdmin_append (l : list User) (doc : User) :
  OnlyFirstIsAdmin l ->
  role doc = (if Nat.eqb (length l) 0 then "admin" else "user") ->
  OnlyFirstIsAdmin (l ++ [doc]).
Proof.
  intros Hl Hr i u Hn.
  destruct (Nat.lt_ge_cases i (length l)) as [Hlt|Hge].
  - rewrite nth_error_app1 in Hn by exact Hlt. now apply Hl.
  - rewrite nth_error_app2 in Hn by exact Hge.
    destruct (i - length l)%nat as [|k] eqn:E; simpl in Hn.
    + injection Hn as <-. rewrite Hr. replace i with (length l) by lia.
      reflexivity.
    + destruct k; discriminate Hn.
Qed.

(** X15. A signup through either entry point keeps the usernames of the store
    distinct. *)
Theorem signup_keeps_usernames_unique
    (e : Site.EntryPoint) (req : Credentials) (db : Db) :
  UniqueUsernames (users db) ->
  UniqueUsernames (users (snd (Site.signupVia trim bcrypt_hash e req db))).
Proof.
  intros Hu.
  destruct (signupVia_store e req db) as [E|(doc & E & _ & _ & Hn)];
    rewrite E; [exact Hu|].
  cbn [users]. now apply UniqueUsernames_append.
Qed.

(** X16. Whatever signup requests reach an empty store, in whatever order and
    through whichever entry point each: the user stored first, and no
    other, has the role 'admin'; no two stored users share a username;
    and no photo appears. *)
Theorem signups_from_empty_store (reqs : list (Site.EntryPoint * Credentials)) :
  let db := Site.signupAll trim bcrypt_hash reqs emptyDb in
  OnlyFirstIsAdmin (users db)
  /\ UniqueUsernames (users db)
  /\ photos db = [].
Proof.
  intros db. unfold db, Site.signupAll.
  induction reqs as [|r reqs IH] using rev_ind.
  - simpl. split; [|split; [constructor | reflexivity]].
    intros i u H. destruct i; discriminate H.
  - rewrite fold_left_app. cbn [fold_left].
    set (d := fold_left _ reqs emptyDb) in *.
    destruct IH as (Ha & Hu & Hp).
    destruct (signupVia_store (fst r) (snd r) d) as [E|(doc & E & _ & Hr & Hn)];
      rewrite E; [repeat split; assumption|].
    cbn [users photos]. split; [now apply OnlyFirstIsAdmin_append|].
    split; [now apply UniqueUsernames_append | exact Hp].
Qed.

End SignupLaws.

Section LoginLaws.

Import Backend.

Variable trim : string -> string.
Variable bcrypt_hash : string -> string.
Variable bcrypt_compare : string -> string -> bool.
Variable jwt_sign : N -> string -> string -> string -> string.

(** The body both login handlers share, when the user is found, the
    password matches and the secret is set. *)
Lemma login_grants (setter : string -> string) (secret : string)
    (answer : User -> string -> Response)
    (req : Credentials) (db : Db) (user : User) (p : string) :
  reachable db = true ->
  findByUsername setter (body_username req) (users db) = Some user ->
  body_password req = Some p ->
  bcrypt_compare p (password user) = true ->
  tryCatch
    (found <- User_findOne setter (body_username req) ;;
     match found with
     | None => ret invalidCredentials
     | Some user =>
         isPasswordValid <-
           compareWith bcrypt_compare (body_password req) (password user) ;;
         if negb isPasswordValid then ret invalidCredentials
         else
           token <- signWith jwt_sign (Some secret) user ;;
           ret (answer user token)
     end)
    (fun _ => json 500 (errorBody "Login failed")) db =
  (answer user
     (jwt_sign (user_id user) (username user) (role user) secret), db).
Proof.
  intros Hr Hf Hp Hc.
  unfold tryCatch, bind, User_findOne. rewrite Hr. cbn [negb].
  rewrite Hf, Hp. cbn [compareWith ret]. rewrite Hc. reflexivity.
Qed.

(** X17. A login whose username selects a stored user and whose password
    matches that user's hash is answered 200, by both entry points, with
    a token signed for that user, the user's role and the user's name;
    the store is left as it was. *)
Theorem login_accepts_matching_password
    (secret : string) (req : Credentials) (db : Db) (p : string) :
  reachable db = true ->
  body_password req = Some p ->
  (forall user : User,
     findByUsername Serverless.setter (body_username req) (users db) = Some user ->
     bcrypt_compare p (password user) = true ->
     Serverless.login bcrypt_compare jwt_sign (Some secret) req db =
       (json 200
          (JObject [("message", JString "Login successful");
                    ("token", JString (jwt_sign (user_id user) (username user)
                                         (role user) secret));
                    ("role", JString (role user));
                    ("username", JString (username user))]), db))
  /\ (forall user : User,
        findByUsername (Server.setter trim) (body_username req) (users db) = Some user ->
        bcrypt_compare p (password user) = true ->
        Server.login trim bcrypt_compare jwt_sign (Some secret) req db =
          (json 200
             (JObject [("message", JString "Login successful");
                       ("token", JString (jwt_sign (user_id user) (username user)
                                            (role user) secret));
                       ("role", JString (role user));
                       ("username", JString (username user))]), db)).
Proof.
  intros Hr Hp. split; intros user Hf Hc.
  - unfold Serverless.login.
    now rewrite (login_grants Serverless.setter secret _ req db user p).
  - unfold Server.login.
    now rewrite (login_grants (Server.setter trim) secret _ req db user p).
Qed.

Lemma find_after_append (f : User -> bool) (l : list User) (doc : User) :
  List.existsb f l = false -> f doc = true ->
  List.find f (l ++ [doc]) = Some doc.
Proof.
  intros Hn Hd. induction l as [|x l IH]; simpl in *.
  - now rewrite Hd.
  - apply orb_false_iff in Hn as [Hx Hl]. rewrite Hx. now apply IH.
Qed.

(** The part both variants share of "sign up, then log in". *)
Lemma login_after_signup_core (setter : string -> string) (secret : string)
    (u p : string) (db : Db)
    (answer1 : User -> Response) (onError : Error -> Response)
    (answer2 : User -> string -> Response)
    (resp : Response) (db' : Db) :
  tryCatch
    (userCount <- User_countDocuments ;;
     newUser <- User_create setter u (bcrypt_hash p)
                  (if Nat.eqb userCount 0 then "admin" else "user") ;;
     ret (answer1 newUser)) onError db = (resp, db') ->
  status resp = 201%Z ->
  (forall e, status (onError e) <> 201%Z) ->
  bcrypt_compare p (bcrypt_hash p) = true ->
  exists user : User,
    users db' = users db ++ [user]
    /\ username user = setter u
    /\ tryCatch
         (found <- User_findOne setter (Some u) ;;
          match found with
          | None => ret invalidCredentials
          | Some user =>
              isPasswordValid <-
                compareWith bcrypt_compare (Some p) (password user) ;;
              if negb isPasswordValid then ret invalidCredentials
              else
                token <- signWith jwt_sign (Some secret) user ;;
                ret (answer2 user token)
          end)
         (fun _ => json 500 (errorBody "Login failed")) db' =
       (answer2 user
          (jwt_sign (user_id user) (username user) (role user) secret), db').
Proof.
  intros Hrun Hst Herr Hcmp.
  destruct (signup_core setter u (bcrypt_hash p) db answer1 onError)
    as [(e & Ho & _)|(Ho & Hr & _ & _ & Hnot)];
    cbv zeta in Ho; rewrite Ho in Hrun; injection Hrun as <- <-.
  - now apply Herr in Hst.
  - eexists. split; [reflexivity|]. split; [reflexivity|].
    apply (login_grants setter secret answer2
             {| body_username := Some u; body_password := Some p |} _ _ p).
    + exact Hr.
    + cbn [body_username findByUsername users].
      apply find_after_append; [exact Hnot|].
      cbn [username]. apply String.eqb_refl.
    + reflexivity.
    + exact Hcmp.
Qed.

(** X18. Sign up, then log in: after a signup answered 201, a login with the
    same username and password, at the same entry point, is answered 200
    with the role the signup gave, provided the hash function and the
    comparison of the host agree on that password and the secret is set. *)
Theorem login_after_signup_succeeds
    (secret : string) (u p : string) (db : Db) (resp : Response) (db' : Db) :
  let req := {| body_username := Some u; body_password := Some p |} in
  bcrypt_compare p (bcrypt_hash p) = true ->
  status resp = 201%Z ->
  (Serverless.signup bcrypt_hash req db = (resp, db') ->
   exists user : User,
     users db' = users db ++ [user] /\ username user = u
     /\ Serverless.login bcrypt_compare jwt_sign (Some secret) req db' =
          (json 200
             (JObject [("message", JString "Login successful");
                       ("token", JString (jwt_sign (user_id user) (username user)
                                            (role user) secret));
                       ("role", JString (role user));
                       ("username", JString (username user))]), db'))
  /\ (Server.signup trim bcrypt_hash req db = (resp, db') ->
      exists user : User,
        users db' = users db ++ [user] /\ username user = trim u
        /\ Server.login trim bcrypt_compare jwt_sign (Some secret) req db' =
             (json 200
                (JObject [("message", JString "Login successful");
                          ("token", JString (jwt_sign (user_id user) (username user)
                                               (role user) secret));
                          ("role", JString (role user));
                          ("username", JString (username user))]), db')).
Proof.
  intros req Hcmp Hst. split; intros Hrun.
  - unfold Serverless.signup in Hrun. unfold Serverless.login.
    cbn [req body_username body_password valueOf] in *.
    destruct (isFalsy (Some u) || isFalsy (Some p)).
    + cbv [tryCatch ret] in Hrun. injection Hrun as <- _. discriminate Hst.
    + eapply (login_after_signup_core Serverless.setter secret u p db);
        [exact Hrun | exact Hst | | exact Hcmp].
      intros e. cbv beta. destruct (isDuplicateKey e); cbn; discriminate.
  - unfold Server.signup in Hrun. unfold Server.login.
    cbn [req body_username body_password valueOf] in *.
    destruct (isFalsy (Some u) || isFalsy (Some p)).
    + cbv [tryCatch ret] in Hrun. injection Hrun as <- _. discriminate Hst.
    + destruct (String.length p <? 6)%nat.
      * cbv [tryCatch ret] in Hrun. injection Hrun as <- _. discriminate Hst.
      * eapply (login_after_signup_core (Server.setter trim) secret u p db);
          [exact Hrun | exact Hst | | exact Hcmp].
        intros e. cbv beta. destruct (isDuplicateKey e); cbn; discriminate.
Qed.

End LoginLaws.

Section GuardLaws.

Import Backend.

Variable trim : string -> string.
Variable bcrypt_compare : string -> string -> bool.
Variable jwt_sign : N -> string -> string -> string -> string.
Variable jwt_verify : string -> string -> option Claims.
Variable JWT_SECRET : option string.

Lemma split_one_word (s : string) :
  noSpace s = true -> split " " s = [s].
Proof.
  induction s as [|c s IH]; simpl; [reflexivity|].
  intros H. apply andb_true_iff in H as [Hc Hs].
  apply negb_true_iff in Hc. rewrite Hc, (IH Hs). reflexivity.
Qed.

Lemma split_first_word (a b : string) :
  noSpace a = true ->
  split " " (a ++ String " " b) = a :: split " " b.
Proof.
  induction a as [|c a IH]; simpl; [reflexivity|].
  intros H. apply andb_true_iff in H as [Hc Ha].
  apply negb_true_iff in Hc. rewrite Hc, (IH Ha). reflexivity.
Qed.

Lemma append_not_empty (a b : string) : (a ++ String " " b =? "")%string = false.
Proof. destruct a; reflexivity. Qed.

(** X19. A request without an [Authorization] header, or with one that is not
    empty and has no space in it, is refused with 401 before any token is
    looked at. *)
Theorem authenticateToken_without_token (authHeader : option string) :
  authHeader = None \/
  (exists h : string, authHeader = Some h /\ h <> "" /\ noSpace h = true) ->
  authenticateToken jwt_verify JWT_SECRET authHeader = inl unauthorized.
Proof.
  intros [->|(h & -> & Hne & Hs)]; [reflexivity|].
  unfold authenticateToken, tokenOf.
  apply String.eqb_neq in Hne. rewrite Hne, (split_one_word h Hs). reflexivity.
Qed.

(** X20. Of a header of two or more words separated by single spaces, the
    middleware verifies the second word and nothing else: whatever the
    first word is, 'Bearer' or not, the request is refused with 403 when
    the second word does not verify and goes on with its payload when it
    does. *)
Theorem authenticateToken_verifies_second_word
    (scheme token : string) (more : option string) :
  noSpace scheme = true ->
  noSpace token = true ->
  authenticateToken jwt_verify JWT_SECRET
    (Some (scheme ++ " " ++ token ++
           match more with Some m => " " ++ m | None => "" end)%string) =
  match verifyWith jwt_verify JWT_SECRET token with
  | None => inl forbidden
  | Some user => inr user
  end.
Proof.
  intros Hs Ht. unfold authenticateToken, tokenOf.
  change (scheme ++ " " ++ token ++
          match more with Some m => " " ++ m | None => "" end)%string
    with (scheme ++ String " " (token ++
          match more with Some m => String " " m | None => "" end))%string.
  rewrite append_not_empty, (split_first_word _ _ Hs).
  destruct more as [m|].
  - rewrite (split_first_word _ _ Ht). reflexivity.
  - rewrite append_empty_r, (split_one_word _ Ht). reflexivity.
Qed.

Lemma authenticateToken_refusals (authHeader : option string) (r : Response) :
  authenticateToken jwt_verify JWT_SECRET authHeader = inl r ->
  r = unauthorized \/ r = forbidden.
Proof.
  unfold authenticateToken. destruct (tokenOf authHeader) as [t|].
  - destruct (verifyWith jwt_verify JWT_SECRET t); [discriminate|].
    intros H. injection H as <-. right. reflexivity.
  - intros H. injection H as <-. left. reflexivity.
Qed.

(** X21. Unless the request carries a token that verifies with the role
    'admin', both upload routes refuse it, with the same status, 401 or
    403, and the store is left as it was. *)
Theorem upload_refused_without_admin_token
    (req : UploadRequest) (now : Z) (db : Db) :
  (forall user : Claims,
     authenticateToken jwt_verify JWT_SECRET (authorization req) = inr user ->
     claim_role user <> "admin") ->
  let r1 := Serverless.uploadPhoto jwt_verify JWT_SECRET req db in
  let r2 := Server.uploadPhoto jwt_verify JWT_SECRET req now db in
  snd r1 = db /\ snd r2 = db
  /\ status (fst r1) = status (fst r2)
  /\ (status (fst r1) = 401%Z \/ status (fst r1) = 403%Z).
Proof.
  intros Hno r1 r2. unfold r1, r2, Serverless.uploadPhoto, Server.uploadPhoto.
  destruct (authenticateToken jwt_verify JWT_SECRET (authorization req))
    as [r|user] eqn:E.
  - apply authenticateToken_refusals in E as [-> | ->]; cbn;
      repeat split; auto.
  - specialize (Hno user eq_refl). apply String.eqb_neq in Hno.
    unfold Server.isAdmin. rewrite Hno. cbn. repeat split; auto.
Qed.

Lemma sortMostRecentFirst_newest (l : list Photo) (p : Photo) :
  Forall (fun q => (uploadDate q < uploadDate p)%Z) l ->
  sortMostRecentFirst (l ++ [p]) = p :: sortMostRecentFirst l.
Proof.
  induction 1 as [|q l Hq _ IH]; [reflexivity|].
  change (sortMostRecentFirst ((q :: l) ++ [p]))
    with (insertByDate q (sortMostRecentFirst (l ++ [p]))).
  change (sortMostRecentFirst (q :: l))
    with (insertByDate q (sortMostRecentFirst l)).
  rewrite IH. cbn [insertByDate].
  destruct (Z.ltb_spec (uploadDate p) (uploadDate q)); [lia | reflexivity].
Qed.

(** X22. Upload, then list, on the long-running server: an upload with an
    admin's token and a file, at a time later than every stored photo's,
    is answered 201, stores the photo under '/uploads/' and its file
    name, and the listing that follows shows it first, ahead of what was
    listed before; the users are not touched. *)
Theorem server_upload_is_listed_first
    (req : UploadRequest) (now : Z) (db : Db) (user : Claims) (name0 : string) :
  authenticateToken jwt_verify JWT_SECRET (authorization req) = inr user ->
  claim_role user = "admin" ->
  file_filename req = Some name0 ->
  reachable db = true ->
  Forall (fun q => (uploadDate q < now)%Z) (photos db) ->
  let doc := {| photo_id := nextId db; filename := name0;
                filepath := "/uploads/" ++ name0; uploadDate := now |} in
  let db' := snd (Server.uploadPhoto jwt_verify JWT_SECRET req now db) in
  fst (Server.uploadPhoto jwt_verify JWT_SECRET req now db) =
    json 201 (JObject [("message", JString "Photo uploaded successfully!");
                       ("file", JPhoto doc)])
  /\ photos db' = photos db ++ [doc]
  /\ users db' = users db
  /\ fst (Server.photosHandler db') =
       json 200 (JArray (JPhoto doc ::
                         List.map JPhoto (sortMostRecentFirst (photos db)))).
Proof.
  intros Ha Hrole Hf Hr Hold doc db'.
  assert (Hup : Server.uploadPhoto jwt_verify JWT_SECRET req now db =
                (json 201 (JObject [("message", JString "Photo uploaded successfully!");
                                    ("file", JPhoto doc)]),
                 {| users := users db; photos := photos db ++ [doc];
                    nextId := (nextId db + 1)%N; reachable := reachable db |})).
  { unfold Server.uploadPhoto, Server.isAdmin. rewrite Ha, Hrole, Hf.
    cbn [String.eqb Ascii.eqb Bool.eqb].
    unfold tryCatch, bind, Photo_create, ret. rewrite Hr. reflexivity. }
  unfold db'. rewrite Hup. cbn [fst snd photos users].
  repeat split.
  unfold Server.photosHandler, tryCatch, bind, Photo_find_sorted, ret.
  cbn [reachable photos]. rewrite Hr. cbn [fst].
  rewrite sortMostRecentFirst_newest by exact Hold. reflexivity.
Qed.

(** X23. Login, the photo listing and the serverless upload route read the
    store and never write it: whatever the request and whatever the
    answer, the store afterwards is the store before. *)
Theorem read_only_routes_keep_store
    (creds : Credentials) (req : UploadRequest) (db : Db) :
  snd (Serverless.login bcrypt_compare jwt_sign JWT_SECRET creds db) = db
  /\ snd (Server.login trim bcrypt_compare jwt_sign JWT_SECRET creds db) = db
  /\ snd (Serverless.photosHandler db) = db
  /\ snd (Server.photosHandler db) = db
  /\ snd (Serverless.uploadPhoto jwt_verify JWT_SECRET req db) = db.
Proof.
  assert (Hlogin : forall setter (answer : User -> string -> Response),
            snd (tryCatch
              (found <- User_findOne setter (body_username creds) ;;
               match found with
               | None => ret invalidCredentials
               | Some user =>
                   isPasswordValid <-
                     compareWith bcrypt_compare (body_password creds)
                       (password user) ;;
                   if negb isPasswordValid then ret invalidCredentials
                   else
                     token <- signWith jwt_sign JWT_SECRET user ;;
                     ret (answer user token)
               end)
              (fun _ => json 500 (errorBody "Login failed")) db) = db).
  { intros setter answer.
    unfold tryCatch, bind, User_findOne, compareWith, signWith, ret, throw.
    destruct (reachable db); cbn [negb]; [|reflexivity].
    destruct (findByUsername setter (body_username creds) (users db));
      [|reflexivity].
    destruct (body_password creds); [|reflexivity].
    destruct (bcrypt_compare _ _); cbn [negb]; [|reflexivity].
    destruct JWT_SECRET; reflexivity. }
  split; [apply Hlogin|]. split; [apply Hlogin|].
  split; [|split].
  - unfold Serverless.photosHandler, tryCatch, bind, Photo_find_sorted, ret.
    destruct (reachable db); [|reflexivity].
    destruct (Nat.eqb _ 0); reflexivity.
  - unfold Server.photosHandler, tryCatch, bind, Photo_find_sorted, ret.
    destruct (reachable db); reflexivity.
  - unfold Serverless.uploadPhoto.
    destruct (authenticateToken _ _ _); [reflexivity|].
    destruct (negb _); reflexivity.
Qed.

End GuardLaws.

Section ContactLaws.

Import Backend.

(** X24. The contact endpoint. The long-running server stores a message, and
    answers 201, exactly when the name, the email and the message are all
    given and not empty and the store answers; the serverless entry point
    checks nothing and stores whatever it is sent whenever the store
    answers. Either one, when it answers 201, has added exactly the
    submitted form, with the time of the request; otherwise the contacts
    are as they were. *)
Theorem contact_outcomes (form : ContactForm) (now : Z) (inbox : Inbox) :
  let complete := negb (isFalsy (form_name form) || isFalsy (form_email form)
                        || isFalsy (form_message form)) in
  let doc := {| contact_id := inbox_nextId inbox;
                contact_name := form_name form;
                contact_email := form_email form;
                contact_message := form_message form;
                timestamp := now |} in
  let r1 := Serverless.contact form now inbox in
  let r2 := Server.contact form now inbox in
  (contact_status (fst r1) = 201%Z <-> inbox_reachable inbox = true)
  /\ (contact_status (fst r2) = 201%Z <->
      complete = true /\ inbox_reachable inbox = true)
  /\ contacts (snd r1) =
       (if inbox_reachable inbox then contacts inbox ++ [doc] else contacts inbox)
  /\ contacts (snd r2) =
       (if complete && inbox_reachable inbox
        then contacts inbox ++ [doc] else contacts inbox).
Proof.
  intros complete doc r1 r2.
  unfold r1, r2, complete, Serverless.contact, Server.contact, submitContact,
    Contact_create.
  destruct (isFalsy (form_name form) || isFalsy (form_email form)
            || isFalsy (form_message form));
    destruct (inbox_reachable inbox); cbn;
    repeat split; try reflexivity; try discriminate;
    try (intros [? ?]; discriminate); auto.
Qed.

End ContactLaws.

(** ** The further theorems at work on examples *)

Section MoreExamples.

Import Frontend Backend.

Lemma search_by_name_or_region_finds_record_witness :
  let enchey := {| name := "Enchey Monastery"; lat := 27.3370; lng := 88.6143;
                   sect := "Nyingma"; location := "East Sikkim" |}%float in
  In enchey MONASTERY_LOCATIONS
  /\ JS.ascii_toLowerCase "ENCHEY monastery" =
       JS.ascii_toLowerCase (name enchey)
  /\ In enchey (filtered JS.ascii_toLowerCase MONASTERY_LOCATIONS
                  "all" "all" "ENCHEY monastery").
Proof.
  intros enchey.
  assert (Hin : In enchey MONASTERY_LOCATIONS)
    by (do 3 right; left; reflexivity).
  split; [exact Hin|]. split; [reflexivity|].
  apply (search_by_name_or_region_finds_record JS.ascii_toLowerCase
           MONASTERY_LOCATIONS enchey "ENCHEY monastery" Hin).
  left. reflexivity.
Defined.

Lemma filtered_one_criterion_at_a_time_witness :
  JS.ascii_toLowerCase "" = ""
  /\ filtered JS.ascii_toLowerCase
       (filtered JS.ascii_toLowerCase
          (filtered JS.ascii_toLowerCase MONASTERY_LOCATIONS "Nyingma" "all" "")
          "all" "West Sikkim" "")
       "all" "all" "Dub" =
     filtered JS.ascii_toLowerCase MONASTERY_LOCATIONS
       "Nyingma" "West Sikkim" "Dub".
Proof.
  split; [reflexivity|].
  apply (filtered_one_criterion_at_a_time JS.ascii_toLowerCase). reflexivity.
Defined.

Lemma nextSlide_prevSlide_inverse_witness :
  (0 <= currentSlide threeSlides < Z.of_nat (length (slides threeSlides)))%Z
  /\ prevSlide (nextSlide threeSlides) = showSlide 1 threeSlides
  /\ nextSlide (prevSlide threeSlides) = showSlide 1 threeSlides.
Proof.
  assert (H : (0 <= currentSlide threeSlides
                 < Z.of_nat (length (slides threeSlides)))%Z) by (simpl; lia).
  split; [exact H|]. exact (nextSlide_prevSlide_inverse threeSlides H).
Defined.

Lemma autoplay_visits_slides_in_turn_witness :
  slides threeSlides <> []
  /\ currentSlide (Nat.iter 7 nextSlide (loadSlider (slides threeSlides))) = 1%Z.
Proof.
  assert (H : slides threeSlides <> []) by discriminate.
  split; [exact H|].
  destruct (autoplay_visits_slides_in_turn (slides threeSlides) 7 H)
    as (Hc & _ & _).
  rewrite Hc. reflexivity.
Defined.

Lemma server_signup_rejects_short_password_witness :
  let req := {| body_username := Some "monk"; body_password := Some "abc" |} in
  body_password req = Some "abc"
  /\ (String.length "abc" < 6)%nat
  /\ exists msg : string,
       Server.signup (fun s => s) standInHash req emptyDb =
         (json 400 (errorBody msg), emptyDb).
Proof.
  intros req.
  assert (Hlen : (String.length "abc" < 6)%nat) by (simpl; lia).
  split; [reflexivity|]. split; [exact Hlen|].
  exact (server_signup_rejects_short_password (fun s => s) standInHash
           req emptyDb "abc" eq_refl Hlen).
Defined.

Lemma signup_requires_both_fields_witness :
  let req := {| body_username := Some "monk"; body_password := Some "" |} in
  isFalsy (body_password req) = true
  /\ Serverless.signup standInHash req oneUserDb =
       (json 400 (errorBody "Username and password are required"), oneUserDb)
  /\ Server.signup (fun s => s) standInHash req oneUserDb =
       (json 400 (errorBody "Username and password are required"), oneUserDb).
Proof.
  intros req. split; [reflexivity|].
  apply (signup_requires_both_fields (fun s => s) standInHash req oneUserDb).
  right. reflexivity.
Defined.

Lemma signup_duplicate_username_is_409_witness :
  reachable oneUserDb = true
  /\ "monk" <> ""
  /\ standInHash "another1" <> ""
  /\ Serverless.signup standInHash
       {| body_username := Some "monk"; body_password := Some "another1" |}
       oneUserDb =
     (json 409 (errorBody "Username already exists."), oneUserDb)
  /\ Server.signup (fun s => s) standInHash
       {| body_username := Some "monk"; body_password := Some "another1" |}
       oneUserDb =
     (json 409 (errorBody "Username already exists."), oneUserDb).
Proof.
  assert (H1 : "monk" <> "") by discriminate.
  assert (H2 : standInHash "another1" <> "") by discriminate.
  split; [reflexivity|]. split; [exact H1|]. split; [exact H2|].
  destruct (signup_duplicate_username_is_409 (fun s => s) standInHash
              "monk" "another1" oneUserDb eq_refl H1 H2) as [Ha Hb].
  split.
  - apply Ha; [reflexivity | discriminate].
  - apply Hb; [reflexivity | discriminate | simpl; lia].
Defined.

Lemma signup_keeps_usernames_unique_witness :
  let req := {| body_username := Some "nun"; body_password := Some "secret2" |} in
  UniqueUsernames (users oneUserDb)
  /\ List.map username
       (users (snd (Site.signupVia (fun s => s) standInHash
                      Site.ViaServer req oneUserDb))) = ["monk"; "nun"]
  /\ UniqueUsernames
       (users (snd (Site.signupVia (fun s => s) standInHash
                      Site.ViaServer req oneUserDb))).
Proof.
  intros req.
  assert (H : UniqueUsernames (users oneUserDb)).
  { unfold UniqueUsernames. simpl. constructor; [intros [] | constructor]. }
  split; [exact H|]. split; [reflexivity|].
  exact (signup_keeps_usernames_unique (fun s => s) standInHash
           Site.ViaServer req oneUserDb H).
Defined.

Lemma login_accepts_matching_password_witness :
  let req := {| body_username := Some "monk"; body_password := Some "secret1" |} in
  reachable oneUserDb = true
  /\ body_password req = Some "secret1"
  /\ status (fst (Serverless.login standInCompare standInSign (Some "key")
                    req oneUserDb)) = 200%Z
  /\ status (fst (Server.login (fun s => s) standInCompare standInSign
                    (Some "key") req oneUserDb)) = 200%Z.
Proof.
  intros req. split; [reflexivity|]. split; [reflexivity|].
  destruct (login_accepts_matching_password (fun s => s) standInCompare
              standInSign "key" req oneUserDb "secret1" eq_refl eq_refl)
    as [Ha Hb].
  split.
  - rewrite (Ha _ eq_refl eq_refl). reflexivity.
  - rewrite (Hb _ eq_refl eq_refl). reflexivity.
Defined.

Lemma login_after_signup_succeeds_witness :
  let req := {| body_username := Some "nun"; body_password := Some "secret2" |} in
  let out := Server.signup (fun s => s) standInHash req oneUserDb in
  standInCompare "secret2" (standInHash "secret2") = true
  /\ status (fst out) = 201%Z
  /\ exists user : User,
       users (snd out) = users oneUserDb ++ [user]
       /\ role user = "user"
       /\ status (fst (Server.login (fun s => s) standInCompare standInSign
                         (Some "key") req (snd out))) = 200%Z.
Proof.
  intros req out. split; [reflexivity|]. split; [reflexivity|].
  destruct (login_after_signup_succeeds (fun s => s) standInHash standInCompare
              standInSign "key" "nun" "secret2" oneUserDb (fst out) (snd out)
              eq_refl eq_refl) as [_ Hb].
  destruct (Hb eq_refl) as (user & Hu & _ & Hl).
  exists user. split; [exact Hu|]. split.
  - apply (f_equal (fun l => List.map role l)) in Hu.
    rewrite map_app in Hu. simpl in Hu. now injection Hu.
  - unfold req. rewrite Hl. reflexivity.
Defined.

Lemma authenticateToken_without_token_witness :
  (exists h : string, Some "Bearer" = Some h /\ h <> "" /\ noSpace h = true)
  /\ authenticateToken standInVerify (Some "key") (Some "Bearer") =
       inl unauthorized.
Proof.
  assert (H : exists h : string,
            Some "Bearer" = Some h /\ h <> "" /\ noSpace h = true).
  { exists "Bearer". split; [reflexivity|]. split; [discriminate | reflexivity]. }
  split; [exact H|].
  apply (authenticateToken_without_token standInVerify (Some "key")).
  right. exact H.
Defined.

Lemma authenticateToken_verifies_second_word_witness :
  noSpace "Basic" = true
  /\ noSpace "monk.admin.key" = true
  /\ authenticateToken standInVerify (Some "key")
       (Some "Basic monk.admin.key trailing words") =
     inr {| claim_userId := 0; claim_username := "monk";
            claim_role := "admin" |}.
Proof.
  split; [reflexivity|]. split; [reflexivity|].
  exact (authenticateToken_verifies_second_word standInVerify (Some "key")
           "Basic" "monk.admin.key" (Some "trailing words") eq_refl eq_refl).
Defined.

Lemma upload_refused_without_admin_token_witness :
  let req := {| authorization := Some "Bearer nun.user.key";
                file_filename := Some "1700000000000.jpg" |} in
  (forall user : Claims,
     authenticateToken standInVerify (Some "key") (authorization req) = inr user ->
     claim_role user <> "admin")
  /\ status (fst (Server.uploadPhoto standInVerify (Some "key") req
                    1700000000000 oneUserDb)) = 403%Z
  /\ snd (Server.uploadPhoto standInVerify (Some "key") req
            1700000000000 oneUserDb) = oneUserDb.
Proof.
  intros req.
  assert (H : forall user : Claims,
            authenticateToken standInVerify (Some "key") (authorization req)
              = inr user -> claim_role user <> "admin").
  { intros user E. vm_compute in E. injection E as <-. discriminate. }
  split; [exact H|].
  destruct (upload_refused_without_admin_token standInVerify (Some "key")
              req 1700000000000 oneUserDb H) as (_ & Hdb & Hsame & _).
  split; [rewrite <- Hsame; reflexivity | exact Hdb].
Defined.

Lemma server_upload_is_listed_first_witness :
  let req := {| authorization := Some "Bearer monk.admin.key";
                file_filename := Some "1700000000000.jpg" |} in
  let older := {| photo_id := 1; filename := "1600000000000.jpg";
                  filepath := "/uploads/1600000000000.jpg";
                  uploadDate := 1600000000000 |} in
  let db := {| users := users oneUserDb; photos := [older]; nextId := 2;
               reachable := true |} in
  let doc := {| photo_id := 2; filename := "1700000000000.jpg";
                filepath := "/uploads/1700000000000.jpg";
                uploadDate := 1700000000000 |} in
  Forall (fun q => (uploadDate q < 1700000000000)%Z) (photos db)
  /\ fst (Server.photosHandler
            (snd (Server.uploadPhoto standInVerify (Some "key") req
                    1700000000000 db))) =
     json 200 (JArray [JPhoto doc; JPhoto older]).
Proof.
  intros req older db doc.
  assert (H : Forall (fun q => (uploadDate q < 1700000000000)%Z) (photos db))
    by (repeat constructor).
  split; [exact H|].
  destruct (server_upload_is_listed_first standInVerify (Some "key") req
              1700000000000 db
              {| claim_userId := 0; claim_username := "monk";
                 claim_role := "admin" |}
              "1700000000000.jpg" eq_refl eq_refl eq_refl eq_refl H)
    as (_ & _ & _ & Hlist).
  exact Hlist.
Defined.

End MoreExamples.

(** * Requests the handlers mishandle *)

Section Overlapping.

Import Backend.

Variable trim : string -> string.
Variable bcrypt_hash : string -> string.

(** A handler that takes its two turns with nothing in between is the
    handler of the entry point as given above. *)
Lemma step_twice_is_signup (e : Site.EntryPoint) (req : Credentials) (db : Db) :
  Overlap.step trim bcrypt_hash e
    (fst (Overlap.step trim bcrypt_hash e (Overlap.Received req) db))
    (snd (Overlap.step trim bcrypt_hash e (Overlap.Received req) db)) =
  (Overlap.Answered (fst (Site.signupVia trim bcrypt_hash e req db)),
   snd (Site.signupVia trim bcrypt_hash e req db)).
Proof.
  destruct e; unfold Site.signupVia, Serverless.signup, Server.signup;
    cbn [Overlap.step]; unfold Overlap.checks;
    destruct (isFalsy (body_username req) || isFalsy (body_password req));
    try reflexivity.
  - unfold tryCatch, bind, User_countDocuments.
    destruct (reachable db) eqn:Er; [|reflexivity].
    cbn [fst snd Overlap.step Overlap.setterOf].
    destruct (User_create _ _ _ _ db) as [[err|newUser] db']; reflexivity.
  - destruct (String.length (valueOf (body_password req)) <? 6)%nat;
      [reflexivity|].
    unfold tryCatch, bind, User_countDocuments.
    destruct (reachable db) eqn:Er; [|reflexivity].
    cbn [fst snd Overlap.step Overlap.setterOf].
    destruct (User_create _ _ _ _ db) as [[err|newUser] db']; reflexivity.
Qed.

(** C8, where the code breaks it. Two signups, for "alice" and for "bob",
    reach an empty store, each through either entry point. When each
    handler has its count before the other sends its create, both are
    answered 201 and both users are stored with the role 'admin'; when
    one handler finishes before the other starts, the second user is
    stored with the role 'user'. *)
Theorem overlapping_signups_are_both_admin (e1 e2 : Site.EntryPoint) :
  bcrypt_hash "secret1" <> "" ->
  bcrypt_hash "secret2" <> "" ->
  trim "alice" = "alice" ->
  trim "bob" = "bob" ->
  let alice := {| body_username := Some "alice"; body_password := Some "secret1" |} in
  let bob := {| body_username := Some "bob"; body_password := Some "secret2" |} in
  let start := [(e1, Overlap.Received alice); (e2, Overlap.Received bob)] in
  let overlapped :=
    Overlap.runSchedule trim bcrypt_hash [0; 1; 0; 1]%nat start emptyDb in
  let inTurn :=
    Overlap.runSchedule trim bcrypt_hash [0; 0; 1; 1]%nat start emptyDb in
  List.map Overlap.answered (fst overlapped) = [Some 201%Z; Some 201%Z]
  /\ List.map username (users (snd overlapped)) = ["alice"; "bob"]
  /\ List.map role (users (snd overlapped)) = ["admin"; "admin"]
  /\ List.map Overlap.answered (fst inTurn) = [Some 201%Z; Some 201%Z]
  /\ List.map username (users (snd inTurn)) = ["alice"; "bob"]
  /\ List.map role (users (snd inTurn)) = ["admin"; "user"].
Proof.
  intros H1 H2 Ha Hb alice bob start overlapped inTurn.
  apply String.eqb_neq in H1, H2.
  unfold overlapped, inTurn, start, alice, bob, Overlap.runSchedule.
  destruct e1, e2;
    repeat first
      [ progress cbn
      | progress unfold User_create, User_countDocuments, Overlap.setterOf,
          Serverless.setter, Server.setter
      | rewrite Ha | rewrite Hb | rewrite H1 | rewrite H2 ];
    repeat split; reflexivity.
Qed.

End Overlapping.

Section NoPassword.

Import Backend.

Variable trim : string -> string.
Variable bcrypt_compare : string -> string -> bool.
Variable jwt_sign : N -> string -> string -> string -> string.
Variable JWT_SECRET : option string.

(** The body both login handlers share, on a request with no password. *)
Lemma login_without_password (setter : string -> string)
    (answer : User -> string -> Response)
    (req : Credentials) (db : Db) :
  reachable db = true ->
  body_password req = None ->
  tryCatch
    (found <- User_findOne setter (body_username req) ;;
     match found with
     | None => ret invalidCredentials
     | Some user =>
         isPasswordValid <-
           compareWith bcrypt_compare (body_password req) (password user) ;;
         if negb isPasswordValid then ret invalidCredentials
         else
           token <- signWith jwt_sign JWT_SECRET user ;;
           ret (answer user token)
     end)
    (fun _ => json 500 (errorBody "Login failed")) db =
  (match findByUsername setter (body_username req) (users db) with
   | Some _ => json 500 (errorBody "Login failed")
   | None => json 401 (errorBody "Invalid credentials")
   end, db).
Proof.
  intros Hr Hp. unfold tryCatch, bind, User_findOne. rewrite Hr. cbn [negb].
  destruct (findByUsername setter (body_username req) (users db));
    [|reflexivity].
  rewrite Hp. reflexivity.
Qed.

(** C10, where the code breaks it. A login that carries no password
    fails in both variants, and the answer tells the client whether the
    username is stored: 500 with [{ error: 'Login failed' }] when it
    selects a user, since [bcrypt.compare] rejects a missing password and
    the [catch] block answers, and 401 with
    [{ error: 'Invalid credentials' }] when it selects none. *)
Theorem login_without_password_reveals_username
    (req : Credentials) (db : Db) :
  reachable db = true ->
  body_password req = None ->
  Serverless.login bcrypt_compare jwt_sign JWT_SECRET req db =
    (match findByUsername Serverless.setter (body_username req) (users db) with
     | Some _ =>
         {| status := 500;
            body := JObject [("error", JString "Login failed")] |}
     | None =>
         {| status := 401;
            body := JObject [("error", JString "Invalid credentials")] |}
     end, db)
  /\ Server.login trim bcrypt_compare jwt_sign JWT_SECRET req db =
       (match findByUsername (Server.setter trim) (body_username req) (users db) with
        | Some _ =>
            {| status := 500;
               body := JObject [("error", JString "Login failed")] |}
        | None =>
            {| status := 401;
               body := JObject [("error", JString "Invalid credentials")] |}
        end, db).
Proof.
  intros Hr Hp. split.
  - unfold Serverless.login. now apply login_without_password.
  - unfold Server.login. now apply login_without_password.
Qed.

End NoPassword.

Section MishandledExamples.

Import Backend.

Lemma overlapping_signups_are_both_admin_witness :
  let alice := {| body_username := Some "alice"; body_password := Some "secret1" |} in
  let bob := {| body_username := Some "bob"; body_password := Some "secret2" |} in
  let start := [(Site.ViaServerless, Overlap.Received alice);
                (Site.ViaServer, Overlap.Received bob)] in
  standInHash "secret1" <> ""
  /\ standInHash "secret2" <> ""
  /\ List.map role
       (users (snd (Overlap.runSchedule (fun s => s) standInHash
                      [0; 1; 0; 1]%nat start emptyDb))) = ["admin"; "admin"]
  /\ List.map role
       (users (snd (Overlap.runSchedule (fun s => s) standInHash
                      [0; 0; 1; 1]%nat start emptyDb))) = ["admin"; "user"].
Proof.
  intros alice bob start.
  assert (H1 : standInHash "secret1" <> "") by discriminate.
  assert (H2 : standInHash "secret2" <> "") by discriminate.
  split; [exact H1|]. split; [exact H2|].
  destruct (overlapping_signups_are_both_admin (fun s => s) standInHash
              Site.ViaServerless Site.ViaServer H1 H2 eq_refl eq_refl)
    as (_ & _ & Hover & _ & _ & Hturn).
  split; [exact Hover | exact Hturn].
Defined.

Lemma login_without_password_reveals_username_witness :
  let stored := {| body_username := Some "monk"; body_password := None |} in
  let unknown := {| body_username := Some "nobody"; body_password := None |} in
  reachable oneUserDb = true
  /\ body_password stored = None
  /\ body_password unknown = None
  /\ status (fst (Serverless.login standInCompare standInSign (Some "key")
                    stored oneUserDb)) = 500%Z
  /\ status (fst (Serverless.login standInCompare standInSign (Some "key")
                    unknown oneUserDb)) = 401%Z
  /\ status (fst (Server.login (fun s => s) standInCompare standInSign
                    (Some "key") stored oneUserDb)) = 500%Z
  /\ status (fst (Server.login (fun s => s) standInCompare standInSign
                    (Some "key") unknown oneUserDb)) = 401%Z.
Proof.
  intros stored unknown.
  do 3 (split; [reflexivity|]).
  destruct (login_without_password_reveals_username (fun s => s)
              standInCompare standInSign (Some "key") stored oneUserDb
              eq_refl eq_refl) as [S1 S2].
  destruct (login_without_password_reveals_username (fun s => s)
              standInCompare standInSign (Some "key") unknown oneUserDb
              eq_refl eq_refl) as [U1 U2].
  rewrite S1, S2, U1, U2. repeat split; reflexivity.
Defined.

End MishandledExamples.
